(** * math-solver: the /solve pipeline of server.js and server1.js

    A shallow embedding of the two Express servers of the repository:
    [server.js] (the single-model variant, Gemini only) and [server1.js]
    (the dual-API variant, Gemini plus the Newton API).

    JavaScript strings are sequences of UTF-16 code units; they are modelled
    as lists of code units ([N]).  Regular expressions are run by a small
    backtracking matcher that follows the order in which the ECMAScript
    matcher tries alternatives (greedy quantifiers first, leftmost start
    position first).  The completion client and the Newton client are
    external: they are oracles of the world the handlers run in, and the
    handlers are written in a state-and-exception monad that records every
    upstream call. *)

From Stdlib Require Import List NArith ZArith Bool Ascii String Lia.
From Stdlib Require Import DecimalString.
Import ListNotations.

Local Open Scope N_scope.
Local Open Scope list_scope.

(** ** Strings *)

Module Str.

(** A UTF-16 code unit. *)
Definition char : Type := N.

(** A JavaScript string. *)
Definition str : Type := list char.

(** An ASCII literal of the source, as a JavaScript string. *)
Fixpoint js (s : string) : str :=
  match s with
  | EmptyString => []
  | String a s' => N_of_ascii a :: js s'
  end.

Definition eqb (a b : str) : bool :=
  if list_eq_dec N.eq_dec a b then true else false.

(** The double quote and the line feed, which literals cannot spell. *)
Definition dq : str := [34].
Definition nl : str := [10].

(** LineTerminator of ECMAScript: LF, CR, LS, PS. *)
Definition isLineTerminator (c : char) : bool :=
  (c =? 10) || (c =? 13) || (c =? 8232) || (c =? 8233).

(** The characters of [\s] (and of [String.prototype.trim]): WhiteSpace and
    LineTerminator. *)
Definition isWhiteSpace (c : char) : bool :=
  (c =? 9) || (c =? 11) || (c =? 12) || (c =? 32) || (c =? 160) ||
  (c =? 5760) || ((8192 <=? c) && (c <=? 8202)) || (c =? 8239) ||
  (c =? 8287) || (c =? 12288) || (c =? 65279) || isLineTerminator c.

(** [\d] *)
Definition isDigit (c : char) : bool := (48 <=? c) && (c <=? 57).

(** [.] without the s flag *)
Definition isDot (c : char) : bool := negb (isLineTerminator c).

(** [[\s\S]] *)
Definition isAny (c : char) : bool := isWhiteSpace c || negb (isWhiteSpace c).

Definition isUpperAscii (c : char) : bool := (65 <=? c) && (c <=? 90).
Definition isLowerAscii (c : char) : bool := (97 <=? c) && (c <=? 122).

(** Canonicalize of the ECMAScript matcher under the i flag (no u flag): the
    upper-case form of the code unit.  A code unit outside ASCII is never
    canonicalized into ASCII, so for the ASCII patterns of the servers only
    the ASCII letters matter; other code units are left as they are. *)
Definition canonicalize (c : char) : char :=
  if isLowerAscii c then c - 32 else c.

(** [String.prototype.toLowerCase], one code unit at a time.  Besides the
    ASCII capitals, two code points have a lower-case form that contains an
    ASCII letter: U+0130 (i followed by U+0307) and U+212A (k).  Every other
    code unit outside ASCII maps to code units outside ASCII and is kept as
    it is here. *)
Definition lowerChar (c : char) : str :=
  if isUpperAscii c then [c + 32]
  else if c =? 304 then [105; 775]
  else if c =? 8490 then [107]
  else [c].

Definition toLowerCase (s : str) : str := flat_map lowerChar s.

Fixpoint trimStart (s : str) : str :=
  match s with
  | c :: s' => if isWhiteSpace c then trimStart s' else s
  | [] => []
  end.

Definition trimEnd (s : str) : str := rev (trimStart (rev s)).

(** [String.prototype.trim] *)
Definition trim (s : str) : str := trimEnd (trimStart s).

(** [s.startsWith(p)], also returning what follows the prefix. *)
Fixpoint stripPrefix (p s : str) : option str :=
  match p, s with
  | [], _ => Some s
  | a :: p', b :: s' => if a =? b then stripPrefix p' s' else None
  | _ :: _, [] => None
  end.

(** [String.prototype.includes] *)
Fixpoint includes (s needle : str) : bool :=
  match stripPrefix needle s with
  | Some _ => true
  | None => match s with
            | [] => false
            | _ :: s' => includes s' needle
            end
  end.

(** Decimal rendering of an integer, as Number::toString gives it. *)
Definition ofZ (z : Z) : str := js (NilEmpty.string_of_int (Z.to_int z)).

Fixpoint join (sep : str) (l : list str) : str :=
  match l with
  | [] => []
  | [x] => x
  | x :: l' => x ++ sep ++ join sep l'
  end.

End Str.
Import Str.

(** ** Regular expressions

    The regular expressions of the servers are sequences of pattern
    characters, greedy loops over a character class, one capture group and
    the two anchors.  [run] is the backtracking matcher anchored at one
    position; [exec] tries the start positions from left to right, as
    [RegExp.prototype.exec] does for a regular expression without the g and y
    flags. *)

Module RegExp.

Inductive node : Type :=
| Chr (c : char)               (* a pattern character *)
| Star (p : char -> bool)      (* class*, greedy *)
| Plus (p : char -> bool)      (* class+, greedy *)
| Open                         (* the opening parenthesis of group 1 *)
| Close                        (* the closing parenthesis of group 1 *)
| Bol                          (* ^ without the m flag *)
| Eol.                         (* $ without the m flag *)

Record regexp : Type := mkRegExp {
  source : list node;
  ignoreCase : bool
}.

Definition lit (s : string) : list node := map Chr (js s).

(** Whether input code unit [x] matches pattern character [c]. *)
Definition sameChar (icase : bool) (c x : char) : bool :=
  if icase then canonicalize c =? canonicalize x else c =? x.

(** A greedy loop over class [p] followed by the continuation [k]: take one
    more code unit first, and give it back when what follows fails. *)
Fixpoint star {R : Type} (p : char -> bool) (k : str -> option R) (s : str)
  : option R :=
  match s with
  | c :: s' =>
      if p c then
        match star p k s' with
        | Some r => Some r
        | None => k s
        end
      else k s
  | [] => k []
  end.

(** [run input icase pat opened cap s]: match [pat] at the suffix [s] of
    [input]; [opened] is the suffix at which group 1 was opened and [cap] what
    group 1 has captured.  The result is the capture of group 1. *)
Fixpoint run (input : str) (icase : bool) (pat : list node)
         (opened : str) (cap : option str) (s : str) : option (option str) :=
  match pat with
  | [] => Some cap
  | Chr c :: pat' =>
      match s with
      | x :: s' =>
          if sameChar icase c x then run input icase pat' opened cap s'
          else None
      | [] => None
      end
  | Star p :: pat' => star p (run input icase pat' opened cap) s
  | Plus p :: pat' =>
      match s with
      | x :: s' =>
          if p x then star p (run input icase pat' opened cap) s' else None
      | [] => None
      end
  | Open :: pat' => run input icase pat' s cap s
  | Close :: pat' =>
      run input icase pat' opened
          (Some (firstn (List.length opened - List.length s)%nat opened)) s
  | Bol :: pat' =>
      if Nat.eqb (List.length s) (List.length input)
      then run input icase pat' opened cap s else None
  | Eol :: pat' =>
      match s with
      | [] => run input icase pat' opened cap s
      | _ :: _ => None
      end
  end.

Fixpoint execFrom (input : str) (icase : bool) (pat : list node) (s : str)
  : option (option str) :=
  match run input icase pat s None s with
  | Some r => Some r
  | None =>
      match s with
      | [] => None
      | _ :: s' => execFrom input icase pat s'
      end
  end.

(** [re.exec(input)], and so [input.match(re)]: [None] is null, [Some cap]
    is a match array whose element 1 is [cap]. *)
Definition exec (re : regexp) (input : str) : option (option str) :=
  execFrom input (ignoreCase re) (source re) input.

(** [re.test(input)] *)
Definition test (re : regexp) (input : str) : bool :=
  match exec re input with
  | Some _ => true
  | None => false
  end.

(** Element 1 of a match array; the groups of the servers' expressions
    always take part in a match. *)
Definition group1 (m : option str) : str :=
  match m with
  | Some c => c
  | None => []
  end.

End RegExp.
Import RegExp.

(** ** JavaScript values *)

Module Js.

(** The values the handlers see: parsed JSON (request bodies, Newton API
    data), the object literals they answer with, and the inherited members
    of [Object.prototype].  Numbers are the integers; an object lists each
    of its own keys once. *)
#[local] Set Warnings "-register-all".

Inductive jsval : Type :=
| JUndefined
| JNull
| JBool (b : bool)
| JNum (z : Z)
| JStr (s : str)
| JArr (items : list jsval)
| JObj (fields : list (str * jsval))
| JFun (src : str).

(** ToBoolean *)
Definition truthy (v : jsval) : bool :=
  match v with
  | JUndefined | JNull => false
  | JBool b => b
  | JNum z => negb (Z.eqb z 0)
  | JStr s => match s with [] => false | _ :: _ => true end
  | JArr _ | JObj _ | JFun _ => true
  end.

(** ToString, as a template literal applies it.  It is exact on strings,
    booleans, null, undefined, functions, integers of less than 22 digits
    and objects without an own toString key; for an object with such a key
    the code throws a TypeError instead, which is not modelled here: the
    properties that depend on the rendering of the problem are stated for
    problems that are strings. *)
Fixpoint ToString (v : jsval) : str :=
  match v with
  | JUndefined => js "undefined"
  | JNull => js "null"
  | JBool true => js "true"
  | JBool false => js "false"
  | JNum z => ofZ z
  | JStr s => s
  | JArr items =>
      join (js ",")
           (map (fun x => match x with
                          | JUndefined | JNull => []
                          | _ => ToString x
                          end) items)
  | JObj _ => js "[object Object]"
  | JFun src => src
  end.

(** [a || b] *)
Definition logicalOr (a b : jsval) : jsval := if truthy a then a else b.

Fixpoint assoc (fields : list (str * jsval)) (k : str) : option jsval :=
  match fields with
  | [] => None
  | (k', v) :: fields' => if Str.eqb k' k then Some v else assoc fields' k
  end.

Definition native (name : string) : jsval :=
  JFun (js "function " ++ js name ++ js "() { [native code] }").

(** What an ordinary object inherits from [Object.prototype]. *)
Definition objectPrototype : list (str * jsval) :=
  [ (js "constructor", native "Object");
    (js "__proto__", JObj []);
    (js "hasOwnProperty", native "hasOwnProperty");
    (js "isPrototypeOf", native "isPrototypeOf");
    (js "propertyIsEnumerable", native "propertyIsEnumerable");
    (js "toLocaleString", native "toLocaleString");
    (js "toString", native "toString");
    (js "valueOf", native "valueOf");
    (js "__defineGetter__", native "__defineGetter__");
    (js "__defineSetter__", native "__defineSetter__");
    (js "__lookupGetter__", native "__lookupGetter__");
    (js "__lookupSetter__", native "__lookupSetter__") ].

(** [o[k]] on an ordinary object with own properties [fields]: the own
    property, else the inherited one, else undefined. *)
Definition getOwnOrInherited (fields : list (str * jsval)) (k : str) : jsval :=
  match assoc fields k with
  | Some v => v
  | None =>
      match assoc objectPrototype k with
      | Some v => v
      | None => JUndefined
      end
  end.

(** [v.k] for the fixed keys the handlers read, none of which is a member
    of a prototype: [None] stands for the TypeError of reading a property of
    null or undefined. *)
Definition getField (v : jsval) (k : string) : option jsval :=
  match v with
  | JUndefined | JNull => None
  | JObj fields => Some (getOwnOrInherited fields (js k))
  | _ => Some JUndefined
  end.

(** [v.k] where [v] is known to be an object. *)
Definition field (v : jsval) (k : string) : jsval :=
  match getField v k with
  | Some x => x
  | None => JUndefined
  end.

Definition unlines (l : list str) : str := join nl l.

End Js.
Import Js.

(** ** Upstream calls and the handler monad *)

Module Effects.

(** An [Error] object, as far as the handlers look at it. *)
Record error : Type := mkError { message : str }.

Inductive outcome (A : Type) : Type :=
| Ok (a : A)
| Throw (e : error).
Arguments Ok {A} a.
Arguments Throw {A} e.

(** The upstream requests a handler makes, in order. *)
Inductive call : Type :=
| Generate (prompt : str)                 (* model.generateContent(prompt), then .response.text() *)
| NewtonGet (operation expression : str)  (* axios.get of the Newton URL for operation and expression *)
| ListModels.                             (* genAI.listModels() *)

(** What is outside the servers: the answer of the n-th upstream call of a
    request, and the environment variable of the credential. *)
Record World : Type := mkWorld {
  generateContent : nat -> str -> outcome str;
  newtonGet : nat -> str -> str -> outcome jsval;
  listModels : nat -> outcome jsval;
  GEMINI_API_KEY : option str
}.

(** A computation that may perform upstream calls and may throw. *)
Definition M (A : Type) : Type := World -> list call -> outcome A * list call.

Definition ret {A} (a : A) : M A := fun _ tr => (Ok a, tr).

Definition throw {A} (e : error) : M A := fun _ tr => (Throw e, tr).

Definition bind {A B} (c : M A) (k : A -> M B) : M B :=
  fun w tr =>
    match c w tr with
    | (Ok a, tr') => k a w tr'
    | (Throw e, tr') => (Throw e, tr')
    end.

(** [try { c } catch (e) { h e }] *)
Definition tryCatch {A} (c : M A) (h : error -> M A) : M A :=
  fun w tr =>
    match c w tr with
    | (Ok a, tr') => (Ok a, tr')
    | (Throw e, tr') => h e w tr'
    end.

(** [(await model.generateContent(prompt)).response.text()] *)
Definition generate (prompt : str) : M str :=
  fun w tr => (generateContent w (List.length tr) prompt, tr ++ [Generate prompt]).

(** [await axios.get(url)] for the Newton URL, then [.data] *)
Definition axiosGetNewton (operation expression : str) : M jsval :=
  fun w tr =>
    (newtonGet w (List.length tr) operation expression,
     tr ++ [NewtonGet operation expression]).

(** [await genAI.listModels()] *)
Definition awaitListModels : M jsval :=
  fun w tr => (listModels w (List.length tr), tr ++ [ListModels]).

(** [process.env.GEMINI_API_KEY] *)
Definition envKey : M jsval :=
  fun w tr =>
    (Ok match GEMINI_API_KEY w with
        | Some k => JStr k
        | None => JUndefined
        end, tr).

(** Reading a property, with the TypeError of V8 on null and undefined. *)
Definition readField (v : jsval) (k : string) : M jsval :=
  match getField v k with
  | Some x => ret x
  | None =>
      throw (mkError (js "Cannot read properties of " ++ ToString v ++
                      js " (reading '" ++ js k ++ js "')"))
  end.

End Effects.
Import Effects.

Notation "x <- c ;; k" := (bind c (fun x => k))
  (at level 61, c at next level, right associativity).

(** ** Express *)

Module Express.

Inductive payload : Type :=
| NoBody
| Json (v : jsval)        (* res.json(v) *)
| Text (s : str)          (* a text/plain body *)
| IndexPage               (* the static HTML document of GET / *)
| NotFoundPage.           (* the answer of Express when no route matches *)

(** The response: the status, the headers the servers set themselves, and
    the body. *)
Record response : Type := mkResponse {
  status : nat;
  headers : list (str * str);
  payload_of : payload
}.

(** The request: [req.method], the route path that the URL resolves to, and
    [req.body] as [express.json()] leaves it. *)
Record request : Type := mkRequest {
  method : str;
  path : str;
  body : jsval
}.

Definition freshResponse : response := mkResponse 200 [] NoBody.

(** [res.header(name, value)] *)
Definition header (name value : string) (res : response) : response :=
  mkResponse (status res)
             (filter (fun h => negb (Str.eqb (fst h) (js name))) (headers res)
                ++ [(js name, js value)])
             (payload_of res).

Definition getHeader (res : response) (name : string) : option str :=
  match find (fun h => Str.eqb (fst h) (js name)) (headers res) with
  | Some h => Some (snd h)
  | None => None
  end.

(** [res.status(code)] *)
Definition setStatus (code : nat) (res : response) : response :=
  mkResponse code (headers res) (payload_of res).

(** [res.json(v)] *)
Definition json (v : jsval) (res : response) : response :=
  mkResponse (status res) (headers res) (Json v).

(** The rows of the status-message table for the codes of the servers. *)
Definition statusMessage (code : nat) : option str :=
  match code with
  | 200%nat => Some (js "OK")
  | 400%nat => Some (js "Bad Request")
  | 404%nat => Some (js "Not Found")
  | 500%nat => Some (js "Internal Server Error")
  | _ => None
  end.

(** [res.sendStatus(code)]: sets the status and sends its message as the
    body ([statuses.message[code] || String(code)]). *)
Definition sendStatus (code : nat) (res : response) : response :=
  mkResponse code (headers res)
             (Text match statusMessage code with
                   | Some m => m
                   | None => ofZ (Z.of_nat code)
                   end).

Definition isMethod (req : request) (m : string) : bool :=
  Str.eqb (method req) (js m).

Definition isRoute (req : request) (m p : string) : bool :=
  Str.eqb (method req) (js m) && Str.eqb (path req) (js p).

(** The middleware of lines 8-17 of both servers. *)
Definition cors (req : request) (res : response)
           (next : response -> M response) : M response :=
  let res := header "Access-Control-Allow-Origin" "*" res in
  let res := header "Access-Control-Allow-Methods"
                    "GET, POST, PUT, DELETE, OPTIONS" res in
  let res := header "Access-Control-Allow-Headers"
                    "Origin, X-Requested-With, Content-Type, Accept, Authorization"
                    res in
  if isMethod req "OPTIONS" then ret (sendStatus 200 res) else next res.

Definition notFound (res : response) : response :=
  mkResponse 404 (headers res) NotFoundPage.

(** Running a handler on a request, from no upstream call made. *)
Definition serve (app : request -> response -> M response) (w : World)
           (req : request) : outcome response * list call :=
  app req freshResponse w [].

End Express.
Import Express.

(** ** server.js: the single-model variant *)

Module Server.

Definition geminiPrompt (problem : jsval) : str :=
  unlines [
    [];
    js "You are a mathematical expert. Solve this math problem step by step:";
    [];
    js "Problem: " ++ dq ++ ToString problem ++ dq;
    [];
    js "Please provide your response in this EXACT format:";
    js "OPERATION: [the mathematical operation needed]";
    js "EXPRESSION: [the clean mathematical expression]";
    js "RESULT: [the final answer - for derivatives, provide the derivative expression like " ++ dq ++ js "2x + 3" ++ dq ++ js "]";
    js "STEPS: [detailed step-by-step solution]";
    [];
    js "Important rules:";
    js "- For derivatives: Show the derivative as an algebraic expression (e.g., " ++ dq ++ js "2x + 3" ++ dq ++ js ", not just a number)";
    js "- For integration: Include the constant of integration (+C)";
    js "- For factoring: Show the factored form";
    js "- For simplification: Show the simplified expression";
    js "- Always show your work step by step";
    [];
    js "Example for derivative of x^2 + 3x + 2:";
    js "OPERATION: derivative";
    js "EXPRESSION: x^2 + 3x + 2  ";
    js "RESULT: 2x + 3";
    js "STEPS: ";
    js "1. Apply power rule to x^2: derivative is 2x";
    js "2. Apply power rule to 3x: derivative is 3";
    js "3. Derivative of constant 2 is 0";
    js "4. Combine: 2x + 3 + 0 = 2x + 3";
    []
  ].

(** The four regular expressions of lines 68-71 and the one of line 79. *)
Definition reOPERATION : regexp :=
  mkRegExp (lit "OPERATION:" ++ [Star isWhiteSpace; Open; Plus isDot; Close]) true.
Definition reEXPRESSION : regexp :=
  mkRegExp (lit "EXPRESSION:" ++ [Star isWhiteSpace; Open; Plus isDot; Close]) true.
Definition reRESULT : regexp :=
  mkRegExp (lit "RESULT:" ++ [Star isWhiteSpace; Open; Plus isDot; Close]) true.
Definition reSTEPS : regexp :=
  mkRegExp (lit "STEPS:" ++ [Star isWhiteSpace; Open; Plus isAny; Close]) true.
Definition reDigits : regexp :=
  mkRegExp [Bol; Plus isDigit; Eol] false.

(** The fields of lines 73-76. *)
Record analysis : Type := mkAnalysis {
  operation : str;
  expression : jsval;
  result : str;
  steps : str
}.

Definition parse (geminiResponse : str) (problem : jsval) : analysis :=
  let operationMatch := exec reOPERATION geminiResponse in
  let expressionMatch := exec reEXPRESSION geminiResponse in
  let resultMatch := exec reRESULT geminiResponse in
  let stepsMatch := exec reSTEPS geminiResponse in
  mkAnalysis
    match operationMatch with
    | Some m => trim (group1 m)
    | None => js "unknown"
    end
    match expressionMatch with
    | Some m => JStr (trim (group1 m))
    | None => problem
    end
    match resultMatch with
    | Some m => trim (group1 m)
    | None => js "Could not determine result"
    end
    match stepsMatch with
    | Some m => trim (group1 m)
    | None => js "Steps not provided"
    end.

(** The test of line 79. *)
Definition derivativeOfNumber (a : analysis) : bool :=
  includes (toLowerCase (operation a)) (js "deriv") && test reDigits (result a).

Definition validationError : error :=
  mkError (js "Derivative result should be an expression, not just a number").

Definition explanationPrompt (problem : jsval) (a : analysis) : str :=
  unlines [
    [];
    js "Explain this mathematical solution in clear, educational terms:";
    [];
    js "Problem: " ++ ToString problem;
    js "Operation: " ++ operation a;
    js "Expression: " ++ ToString (expression a);
    js "Result: " ++ result a;
    js "Steps: " ++ steps a;
    [];
    js "Provide a friendly explanation that helps someone understand:";
    js "1. What type of problem this is";
    js "2. Why the answer is correct";
    js "3. Key concepts involved";
    [];
    js "Keep it conversational and educational.";
    []
  ].

Definition fallbackPrompt (problem : jsval) : str :=
  js "Solve this math problem: " ++ ToString problem.

(** The object of lines 105-121. *)
Definition solved (problem : jsval) (a : analysis) (explanation geminiResponse : str)
  : jsval :=
  JObj [
    (js "success", JBool true);
    (js "originalProblem", problem);
    (js "analysis", JObj [
       (js "operation", JStr (operation a));
       (js "expression", expression a);
       (js "context", JStr (js "Solving " ++ operation a ++ js " problem")) ]);
    (js "calculation", JObj [
       (js "method", JStr (js "gemini-ai"));
       (js "result", JStr (result a));
       (js "operation", JStr (operation a));
       (js "steps", JStr (steps a)) ]);
    (js "explanation", JStr explanation);
    (js "rawGeminiResponse", JStr geminiResponse) ].

(** The object of lines 134-141. *)
Definition solvedByFallback (problem : jsval) (fallbackResponse : str) : jsval :=
  JObj [
    (js "success", JBool true);
    (js "originalProblem", problem);
    (js "analysis", JObj [
       (js "operation", JStr (js "general"));
       (js "expression", problem);
       (js "context", JStr (js "Fallback solution")) ]);
    (js "calculation", JObj [
       (js "method", JStr (js "gemini-fallback"));
       (js "result", JStr fallbackResponse);
       (js "operation", JStr (js "solve")) ]);
    (js "explanation", JStr (js "Used fallback method to solve the problem."));
    (js "rawGeminiResponse", JStr fallbackResponse) ].

(** The object of lines 144-148 (and of lines 172-176 of server1.js). *)
Definition failed (e : error) : jsval :=
  JObj [
    (js "success", JBool false);
    (js "error", JStr (js "Failed to solve math problem"));
    (js "details", JStr (message e)) ].

Definition problemRequired : jsval :=
  JObj [ (js "error", JStr (js "Problem statement is required")) ].

(** Lines 34-123: the two completions around the parser. *)
Definition pipeline (problem : jsval) (res : response) : M response :=
  geminiResponse <- generate (geminiPrompt problem) ;;
  let a := parse geminiResponse problem in
  if derivativeOfNumber a then throw validationError
  else
    explanation <- generate (explanationPrompt problem a) ;;
    ret (json (solved problem a explanation geminiResponse) res).

(** Lines 126-149: the handler of the outer catch. *)
Definition fallback (req : request) (res : response) (e : error) : M response :=
  tryCatch
    (fallbackResponse <- generate (fallbackPrompt (field (body req) "problem")) ;;
     ret (json (solvedByFallback (field (body req) "problem") fallbackResponse) res))
    (fun fallbackError => ret (json (failed e) (setStatus 500 res))).

(** [app.post('/solve', ...)], for a [req.body] that is an object. *)
Definition solve (req : request) (res : response) : M response :=
  tryCatch
    (let problem := field (body req) "problem" in
     if negb (truthy problem)
     then ret (json problemRequired (setStatus 400 res))
     else pipeline problem res)
    (fallback req res).

(** [app.get('/operations', ...)] *)
Definition operations (res : response) : response :=
  json (JObj [
    (js "availableOperations",
     JArr (map (fun o => JStr (js o))
               ["derive"; "integrate"; "simplify"; "factor"; "solve"; "zeroes"]%string));
    (js "method", JStr (js "gemini-ai"));
    (js "description",
     JStr (js "Operations supported by the Gemini-powered math solver")) ]) res.

(** [app.get('/health', ...)] *)
Definition health (res : response) : M response :=
  key <- envKey ;;
  ret (json (JObj [
    (js "status", JStr (js "healthy"));
    (js "services", JObj [
       (js "gemini", JBool (truthy key));
       (js "method",
        JStr (js "gemini-only (newton api removed for reliability)")) ]) ]) res).

Definition example (problem expectedOperation : string) (more : list (str * jsval))
  : jsval :=
  JObj ([ (js "problem", JStr (js problem));
          (js "expectedOperation", JStr (js expectedOperation)) ] ++ more).

(** [app.get('/examples', ...)] *)
Definition examples (res : response) : response :=
  json (JObj [
    (js "examples", JArr [
       example "Find the derivative of x^2 + 3x + 2" "derivative"
               [ (js "expectedResult", JStr (js "2x + 3")) ];
       example "Simplify (x^2 + 2x + 1)" "simplify" [];
       example "What are the zeros of x^2 - 4?" "zeroes" [];
       example "Factor x^2 + 5x + 6" "factor" [];
       example "Integrate 2x + 3" "integrate" [] ]) ]) res.

(** The routes, in the order of registration. *)
Definition routes (req : request) (res : response) : M response :=
  if isRoute req "POST" "/solve" then solve req res
  else if isRoute req "GET" "/operations" then ret (operations res)
  else if isRoute req "GET" "/" then ret (mkResponse (status res) (headers res) IndexPage)
  else if isRoute req "GET" "/health" then health res
  else if isRoute req "GET" "/examples" then ret (examples res)
  else ret (notFound res).

Definition app (req : request) (res : response) : M response :=
  cors req res (routes req).

End Server.

(** ** server1.js: the dual-API variant *)

Module Server1.

(** The own properties of [NEWTON_OPERATIONS]. *)
Definition NEWTON_OPERATIONS : list (str * jsval) :=
  map (fun kv => (js (fst kv), JStr (js (snd kv))))
      [ ("simplify", "simplify");
        ("factor", "factor");
        ("derive", "derive");
        ("integrate", "integrate");
        ("zeroes", "zeroes");
        ("tangent", "tangent");
        ("area", "area");
        ("cosine", "cos");
        ("sine", "sin");
        ("tangent_trig", "tan");
        ("arccos", "arccos");
        ("arcsin", "arcsin");
        ("arctan", "arctan");
        ("abs", "abs");
        ("log", "log") ]%string.

(** [callNewtonAPI(operation, expression)]: the URL is built from the two
    arguments as strings; whatever fails in building or getting it is thrown
    again under the prefix of line 53.  Building and getting are one step of
    the world here, so a [NewtonGet] is recorded also when
    [encodeURIComponent] throws, which it does on a lone surrogate, before
    any request is made: the properties that count Newton requests ask for
    an expression that is well formed. *)
Definition callNewtonAPI (operation expression : jsval) : M jsval :=
  tryCatch
    (axiosGetNewton (ToString operation) (ToString expression))
    (fun e => throw (mkError (js "Newton API error: " ++ message e))).

Definition geminiPrompt (problem : jsval) : str :=
  unlines [
    [];
    js "    Analyze this math problem and determine:";
    js "    1. What mathematical operation is needed (simplify, factor, derive, integrate, find zeros, etc.)";
    js "    2. Extract the mathematical expression in a clean format";
    js "    3. Provide context about the problem type";
    js "    ";
    js "    Problem: " ++ dq ++ ToString problem ++ dq;
    js "    ";
    js "    Respond in this format:";
    js "    Operation: [operation name]";
    js "    Expression: [clean mathematical expression]";
    js "    Context: [brief explanation of what needs to be solved]";
    js "    "
  ].

(** The regular expressions of lines 115-117. *)
Definition reOperation : regexp :=
  mkRegExp (lit "Operation:" ++ [Star isWhiteSpace; Open; Plus isDot; Close]) true.
Definition reExpression : regexp :=
  mkRegExp (lit "Expression:" ++ [Star isWhiteSpace; Open; Plus isDot; Close]) true.
Definition reContext : regexp :=
  mkRegExp (lit "Context:" ++ [Star isWhiteSpace; Open; Plus isDot; Close]) true.

(** The fields of lines 119-121. *)
Record analysis : Type := mkAnalysis {
  operation : str;
  expression : jsval;
  context : str
}.

Definition parse (geminiResponse : str) (problem : jsval) : analysis :=
  let operationMatch := exec reOperation geminiResponse in
  let expressionMatch := exec reExpression geminiResponse in
  let contextMatch := exec reContext geminiResponse in
  mkAnalysis
    match operationMatch with
    | Some m => toLowerCase (trim (group1 m))
    | None => js "simplify"
    end
    match expressionMatch with
    | Some m => JStr (trim (group1 m))
    | None => problem
    end
    match contextMatch with
    | Some m => trim (group1 m)
    | None => js "Mathematical computation"
    end.

(** Line 124: [NEWTON_OPERATIONS[operation] || 'simplify'] *)
Definition newtonOpOf (operation : str) : jsval :=
  logicalOr (getOwnOrInherited NEWTON_OPERATIONS operation) (JStr (js "simplify")).

(** Lines 127-133: the Newton call and its retry. *)
Definition compute (newtonOp expression : jsval) : M jsval :=
  tryCatch
    (callNewtonAPI newtonOp expression)
    (fun newtonError => callNewtonAPI (JStr (js "simplify")) expression).

Definition explanationPrompt (problem : jsval) (a : analysis) (newtonResult_result : jsval)
  : str :=
  unlines [
    [];
    js "    Explain this mathematical solution in simple terms:";
    js "    ";
    js "    Original Problem: " ++ ToString problem;
    js "    Operation Performed: " ++ operation a;
    js "    Expression: " ++ ToString (expression a);
    js "    Result: " ++ ToString newtonResult_result;
    js "    ";
    js "    Provide a clear, step-by-step explanation of how this solution was obtained.";
    js "    "
  ].

(** The object of lines 151-166. *)
Definition solved (problem : jsval) (a : analysis) (newtonOp r o : jsval)
           (explanation geminiResponse : str) : jsval :=
  JObj [
    (js "success", JBool true);
    (js "originalProblem", problem);
    (js "analysis", JObj [
       (js "operation", JStr (operation a));
       (js "expression", expression a);
       (js "context", JStr (context a)) ]);
    (js "calculation", JObj [
       (js "method", newtonOp);
       (js "result", r);
       (js "operation", o) ]);
    (js "explanation", JStr explanation);
    (js "geminiAnalysis", JStr geminiResponse) ].

(** Lines 96-168. *)
Definition pipeline (problem : jsval) (res : response) : M response :=
  geminiResponse <- generate (geminiPrompt problem) ;;
  let a := parse geminiResponse problem in
  let newtonOp := newtonOpOf (operation a) in
  newtonResult <- compute newtonOp (expression a) ;;
  r <- readField newtonResult "result" ;;
  explanation <- generate (explanationPrompt problem a r) ;;
  o <- readField newtonResult "operation" ;;
  ret (json (solved problem a newtonOp r o explanation geminiResponse) res).

(** [app.post('/solve', ...)] *)
Definition solve (req : request) (res : response) : M response :=
  tryCatch
    (let problem := field (body req) "problem" in
     if negb (truthy problem)
     then ret (json Server.problemRequired (setStatus 400 res))
     else pipeline problem res)
    (fun e => ret (json (Server.failed e) (setStatus 500 res))).

(** [app.get('/operations', ...)] *)
Definition operations (res : response) : response :=
  json (JObj [
    (js "availableOperations", JArr (map (fun kv => JStr (fst kv)) NEWTON_OPERATIONS));
    (js "newtonOperations", JArr (map snd NEWTON_OPERATIONS));
    (js "description",
     JStr (js "Operations supported by the hybrid math solver")) ]) res.

(** [app.get('/health', ...)] *)
Definition health (res : response) : M response :=
  key <- envKey ;;
  ret (json (JObj [
    (js "status", JStr (js "healthy"));
    (js "services", JObj [
       (js "gemini", JBool (truthy key));
       (js "newton", JStr (js "available (no key required)")) ]) ]) res).

(** [app.get('/examples', ...)] *)
Definition examples (res : response) : response :=
  json (JObj [
    (js "examples", JArr [
       Server.example "Find the derivative of x^2 + 3x + 2" "derive" [];
       Server.example "Simplify (x^2 + 2x + 1)" "simplify" [];
       Server.example "What are the zeros of x^2 - 4?" "zeroes" [];
       Server.example "Factor x^2 + 5x + 6" "factor" [];
       Server.example "Integrate 2x + 3" "integrate" [] ]) ]) res.

(** [app.get('/models', ...)] *)
Definition models (res : response) : M response :=
  tryCatch
    (ms <- awaitListModels ;;
     ret (json ms res))
    (fun e => ret (json (JObj [ (js "error", JStr (message e)) ]) (setStatus 500 res))).

(** The routes, in the order of registration. *)
Definition routes (req : request) (res : response) : M response :=
  if isRoute req "POST" "/solve" then solve req res
  else if isRoute req "GET" "/operations" then ret (operations res)
  else if isRoute req "GET" "/" then ret (mkResponse (status res) (headers res) IndexPage)
  else if isRoute req "GET" "/health" then health res
  else if isRoute req "GET" "/examples" then ret (examples res)
  else if isRoute req "GET" "/models" then models res
  else ret (notFound res).

Definition app (req : request) (res : response) : M response :=
  cors req res (routes req).

(** The class of line 79: x, the digits, the operators and parentheses,
    and white space. *)
Definition isExpressionChar (c : char) : bool :=
  (c =? 120) || isDigit c || (c =? 43) || (c =? 45) || (c =? 42) ||
  (c =? 47) || (c =? 94) || (c =? 40) || (c =? 41) || isWhiteSpace c.

(** The regular expression of line 79. *)
Definition reExpressionRun : regexp :=
  mkRegExp [Open; Plus isExpressionChar; Close] false.

(** [parseGeminiResponse(response)]: the pair is the object
    [{ operation, expression }]. *)
Definition parseGeminiResponse (response : str) : str * str :=
  let text := toLowerCase response in
  let operation :=
    if includes text (js "derivative") || includes text (js "derive")
       || includes text (js "differentiate")
    then js "derive"
    else if includes text (js "integral") || includes text (js "integrate")
    then js "integrate"
    else if includes text (js "factor")
    then js "factor"
    else if includes text (js "zeros") || includes text (js "roots")
    then js "zeroes"
    else if includes text (js "simplify")
    then js "simplify"
    else js "simplify" in
  let expressionMatch := exec reExpressionRun text in
  let expression :=
    match expressionMatch with
    | Some m => trim (group1 m)
    | None => []
    end in
  (operation, expression).

End Server1.

(** ** index.html: the connection test of the page *)

Module Client.

(** What the script keeps of the page: its flag, the status line and the
    solve button. *)
Record page : Type := mkPage {
  serverConnected : bool;
  statusClassName : str;
  statusInnerHTML : str;
  solveBtnDisabled : bool
}.

(** [updateConnectionStatus(connected, message)]; the message defaults to
    the empty string. *)
Definition updateConnectionStatus (connected : bool) (message : str) (pg : page)
  : page :=
  if connected
  then mkPage true (js "status connected")
              ([9989] ++ js " Connected to server - Ready to solve math problems!")
              false
  else mkPage false (js "status disconnected")
              ([10060] ++ js " Server connection failed" ++
               match message with
               | [] => []
               | _ :: _ => js ": " ++ message
               end)
              true.

(** What one [fetch] of /health comes to: it is rejected (the network, or
    the abort after ten seconds), or it gives a response with its [ok],
    [status] and [statusText] and the outcome of [response.json()]. *)
Inductive fetched : Type :=
| Rejected (e : error)
| Responded (ok : bool) (status : nat) (statusText : str) (json : outcome jsval).

(** What the script does to the outside, in order. *)
Inductive event : Type :=
| FetchHealth
| Sleep (ms : nat).

(** The body of the try of one attempt: [None] when it returns true, the
    message of the caught error otherwise. *)
Definition failure (r : fetched) : option str :=
  match r with
  | Rejected e => Some (message e)
  | Responded true _ _ (Ok _) => None
  | Responded true _ _ (Throw e) => Some (message e)
  | Responded false status statusText _ =>
      Some (js "HTTP " ++ ofZ (Z.of_nat status) ++ js ": " ++ statusText)
  end.

(** The loop of [testServerConnection] from the index [i] on, [left] being
    the number of indices below [retries] that remain. *)
Fixpoint attempts (net : nat -> fetched) (retries i left : nat) (pg : page)
         (log : list event) : bool * page * list event :=
  match left with
  | O => (false, pg, log)
  | S left' =>
      match failure (net i) with
      | None => (true, updateConnectionStatus true [] pg, log ++ [FetchHealth])
      | Some message =>
          if Nat.eqb i (retries - 1)
          then (false, updateConnectionStatus false message pg, log ++ [FetchHealth])
          else attempts net retries (S i) left' pg
                        (log ++ [FetchHealth; Sleep (2 ^ i * 1000)])
      end
  end.

(** [testServerConnection(retries)], [net i] being what the fetch of the
    attempt of index [i] comes to. *)
Definition testServerConnection (net : nat -> fetched) (retries : nat) (pg : page)
  : bool * page * list event :=
  attempts net retries 0 retries pg [].

End Client.

(** ** Notions the properties are stated with *)

Module Notions.

(** [s] starts with the label [L], letter case ignored; what follows it. *)
Fixpoint stripPrefixCI (L s : str) : option str :=
  match L, s with
  | [], _ => Some s
  | a :: L', x :: s' =>
      if canonicalize a =? canonicalize x then stripPrefixCI L' s' else None
  | _ :: _, [] => None
  end.

(** What follows the first occurrence of the label [L] in [text], letter
    case ignored; [None] when the label is absent. *)
Fixpoint afterLabel (L text : str) : option str :=
  match stripPrefixCI L text with
  | Some post => Some post
  | None =>
      match text with
      | [] => None
      | _ :: text' => afterLabel L text'
      end
  end.

Fixpoint takeWhile (p : char -> bool) (s : str) : str :=
  match s with
  | c :: s' => if p c then c :: takeWhile p s' else []
  | [] => []
  end.

Fixpoint dropWhile (p : char -> bool) (s : str) : str :=
  match s with
  | c :: s' => if p c then dropWhile p s' else s
  | [] => []
  end.

(** The text up to the first line terminator. *)
Definition firstLine (s : str) : str := takeWhile isDot s.

(** Equal up to the case of ASCII letters. *)
Definition sameCI (a b : str) : Prop :=
  Forall2 (fun x y => canonicalize x = canonicalize y) a b.

(** The part of a label expression after the label: white space, then the
    capture group over the class [cls]. *)
Definition tailPattern (cls : char -> bool) : list node :=
  [Star isWhiteSpace; Open; Plus cls; Close].

(** What the capture group takes at [s]. *)
Definition captureAt (cls : char -> bool) (s : str) : option (option str) :=
  run [] true [Open; Plus cls; Close] [] None s.

(** What the part after the label captures at [post]. *)
Definition valueAt (cls : char -> bool) (post : str) : option (option str) :=
  star isWhiteSpace (captureAt cls) post.

(** The completion of the parsing example. *)
Definition structuredSample : str :=
  js "OPERATION: derivative" ++ nl ++ js "EXPRESSION: x^2" ++ nl ++
  js "RESULT: 2x" ++ nl ++ js "STEPS: apply power rule".

(** The same completion with a line break after the first label. *)
Definition brokenLineSample : str :=
  js "OPERATION:" ++ nl ++ js "EXPRESSION: x^2" ++ nl ++
  js "RESULT: 2x" ++ nl ++ js "STEPS: apply power rule".


(** A POST to /solve with body [b]. *)
Definition solveRequest (b : jsval) : request :=
  mkRequest (js "POST") (js "/solve") b.

(** The response as the CORS middleware hands it on. *)
Definition corsResponse : response :=
  mkResponse 200
    [ (js "Access-Control-Allow-Origin", js "*");
      (js "Access-Control-Allow-Methods", js "GET, POST, PUT, DELETE, OPTIONS");
      (js "Access-Control-Allow-Headers",
       js "Origin, X-Requested-With, Content-Type, Accept, Authorization") ]
    NoBody.

(** The credential is configured: the variable is set and not empty. *)
Definition keyConfigured (w : World) : bool :=
  match GEMINI_API_KEY w with
  | Some (_ :: _) => true
  | _ => false
  end.

(** A world given by the list of its completions, in order; every other
    upstream call fails. *)
Definition scripted (answers : list (outcome str)) : World :=
  mkWorld (fun n _ => nth n answers (Throw (mkError (js "no answer"))))
          (fun _ _ _ => Throw (mkError (js "no answer")))
          (fun _ => Throw (mkError (js "no answer")))
          None.

(** A world of the dual-API variant: the first upstream call is answered
    with the completion [analysis], every later completion with
    [explanation], and the Newton API answers the operation "simplify"
    only. *)
Definition simplifyOnly (analysis explanation : str) : World :=
  mkWorld (fun n _ => match n with
                      | O => Ok analysis
                      | S _ => Ok explanation
                      end)
          (fun _ operation expression =>
             if Str.eqb operation (js "simplify")
             then Ok (JObj [ (js "operation", JStr operation);
                             (js "expression", JStr expression);
                             (js "result", JStr expression) ])
             else Throw (mkError (js "Request failed with status code 400")))
          (fun _ => Throw (mkError (js "no answer")))
          None.

(** What the catch of server.js answers after the failure [e], [tr] being
    the calls made so far. *)
Definition fallbackAnswer (w : World) (p : jsval) (e : error) (tr : list call)
  : outcome response * list call :=
  (Ok match generateContent w (List.length tr) (Server.fallbackPrompt p) with
      | Ok t => json (Server.solvedByFallback p t) corsResponse
      | Throw _ => json (Server.failed e) (setStatus 500 corsResponse)
      end,
   tr ++ [Generate (Server.fallbackPrompt p)]).

(** The events of the connection test up to a fetch of index [k] that ends
    it: every earlier attempt is followed by its wait. *)
Definition schedule (k : nat) : list Client.event :=
  flat_map (fun j => [Client.FetchHealth; Client.Sleep (2 ^ j * 1000)]) (seq 0 k)
  ++ [Client.FetchHealth].

Definition isFetch (e : Client.event) : bool :=
  match e with
  | Client.FetchHealth => true
  | Client.Sleep _ => false
  end.

(** The time waited, in milliseconds. *)
Definition waited (log : list Client.event) : nat :=
  fold_right (fun e t => match e with
                         | Client.Sleep ms => (ms + t)%nat
                         | Client.FetchHealth => t
                         end) 0%nat log.

(** What follows the first expression character of [s]. *)
Definition fromFirstExpressionChar (s : str) : str :=
  dropWhile (fun c => negb (Server1.isExpressionChar c)) s.

(** An ASCII code unit. *)
Definition isAscii (c : char) : bool := c <? 128.

Definition isHighSurrogate (c : char) : bool := (55296 <=? c) && (c <=? 56319).
Definition isLowSurrogate (c : char) : bool := (56320 <=? c) && (c <=? 57343).

(** [String.prototype.isWellFormed]: no lone surrogate.  These are the
    strings that [encodeURIComponent] encodes; on the others it throws a
    URIError. *)
Fixpoint isWellFormed (s : str) : bool :=
  match s with
  | [] => true
  | c :: s' =>
      if isHighSurrogate c then
        match s' with
        | d :: s'' => isLowSurrogate d && isWellFormed s''
        | [] => false
        end
      else if isLowSurrogate c then false
      else isWellFormed s'
  end.

Definition isListModels (c : call) : bool :=
  match c with
  | ListModels => true
  | _ => false
  end.

(** A character of a catalog key: a small letter or the low line. *)
Definition isKeyChar (c : char) : bool := isLowerAscii c || (c =? 95).

(** The TypeError of reading property [k] of [v]. *)
Definition typeError (v : jsval) (k : string) : error :=
  mkError (js "Cannot read properties of " ++ ToString v ++
           js " (reading '" ++ js k ++ js "')").

(** The operation names a derivative: it contains "deriv" in some letter
    case. *)
Definition mentionsDeriv (operation : str) : Prop :=
  exists x d y, operation = x ++ d ++ y /\ sameCI (js "deriv") d.

(** The kinds of upstream calls, and the status codes of the servers. *)
Definition isGenerate (c : call) : bool :=
  match c with
  | Generate _ => true
  | _ => false
  end.

Definition isNewtonGet (c : call) : bool :=
  match c with
  | NewtonGet _ _ => true
  | _ => false
  end.

Definition knownStatus (code : nat) : bool :=
  Nat.eqb code 200 || Nat.eqb code 400 || Nat.eqb code 404 || Nat.eqb code 500.

End Notions.
Import Notions.

(** ** Facts on strings *)

Lemma isAny_true (c : char) : isAny c = true.
Proof. unfold isAny. apply orb_negb_r. Qed.

Lemma black_is_dot (c : char) : isWhiteSpace c = false -> isDot c = true.
Proof.
  unfold isWhiteSpace, isDot. intros H.
  destruct (isLineTerminator c); [|reflexivity].
  rewrite orb_true_r in H. discriminate.
Qed.

Lemma not_dot_is_terminator (c : char) :
  isDot c = false -> isLineTerminator c = true.
Proof. unfold isDot. destruct (isLineTerminator c); simpl; congruence. Qed.

Lemma terminator_is_white (c : char) :
  isLineTerminator c = true -> isWhiteSpace c = true.
Proof. unfold isWhiteSpace. intros ->. apply orb_true_r. Qed.

Lemma canonicalize_terminator (c : char) :
  isLineTerminator c = true -> canonicalize c = c.
Proof.
  unfold isLineTerminator, canonicalize, isLowerAscii. intros H.
  destruct (97 <=? c) eqn:E1; [|reflexivity].
  destruct (c <=? 122) eqn:E2; [|reflexivity].
  apply N.leb_le in E1, E2.
  repeat (apply orb_true_iff in H; destruct H as [H|H]);
    apply N.eqb_eq in H; lia.
Qed.

Lemma takeWhile_any (s : str) : takeWhile isAny s = s.
Proof.
  induction s as [|c s IH]; simpl; [reflexivity|].
  rewrite isAny_true, IH. reflexivity.
Qed.

Lemma trimStart_idem (s : str) : trimStart (trimStart s) = trimStart s.
Proof.
  induction s as [|c s IH]; simpl; [reflexivity|].
  destruct (isWhiteSpace c) eqn:E; [exact IH|].
  simpl. rewrite E. reflexivity.
Qed.

Lemma trim_trimStart (s : str) : trim (trimStart s) = trim s.
Proof. unfold trim. rewrite trimStart_idem. reflexivity. Qed.

Lemma trim_blank (s : str) : trimStart s = [] -> trim s = [].
Proof. unfold trim. intros ->. reflexivity. Qed.

Lemma firstn_takeWhile (p : char -> bool) (s : str) :
  firstn (List.length s - List.length (dropWhile p s)) s = takeWhile p s.
Proof.
  induction s as [|c s IH]; [reflexivity|].
  simpl dropWhile. simpl takeWhile. destruct (p c).
  - assert (Hle : (List.length (dropWhile p s) <= List.length s)%nat).
    { clear. induction s as [|d s IH]; simpl; [lia|].
      destruct (p d); simpl; lia. }
    change (List.length (c :: s)) with (S (List.length s)).
    rewrite Nat.sub_succ_l by exact Hle.
    simpl. rewrite IH. reflexivity.
  - rewrite Nat.sub_diag. reflexivity.
Qed.

Lemma stripPrefix_app (n b : str) : stripPrefix n (n ++ b) = Some b.
Proof.
  induction n as [|c n IH]; simpl; [reflexivity|].
  rewrite N.eqb_refl. exact IH.
Qed.

Lemma includes_app (a n b : str) : includes (a ++ n ++ b) n = true.
Proof.
  induction a as [|c a IH].
  - simpl app. destruct n as [|d n]; [destruct b; reflexivity|].
    change (d :: n ++ b) with ((d :: n) ++ b).
    destruct b as [|e b]; simpl includes;
      rewrite ?app_nil_r; simpl; rewrite N.eqb_refl.
    + replace n with (n ++ []) at 2 by apply app_nil_r.
      rewrite stripPrefix_app. reflexivity.
    + rewrite stripPrefix_app. reflexivity.
  - simpl. rewrite IH. destruct (stripPrefix n (c :: a ++ n ++ b)); reflexivity.
Qed.

(** ** Facts on the matcher *)

Lemma star_greedy {R : Type} (p : char -> bool) (k : str -> option R)
      (s : str) (r : R) :
  k (dropWhile p s) = Some r -> star p k s = Some r.
Proof.
  induction s as [|c s IH]; simpl; [trivial|].
  destruct (p c); [|trivial].
  intros H. rewrite (IH H). reflexivity.
Qed.

Lemma star_all {R : Type} (p : char -> bool) (k : str -> option R)
      (s : str) (r : R) :
  forallb p s = true -> k [] = Some r -> star p k s = Some r.
Proof.
  induction s as [|c s IH]; simpl; [trivial|].
  intros H Hk. apply andb_true_iff in H. destruct H as [Hc Hs].
  rewrite Hc, (IH Hs Hk). reflexivity.
Qed.

Lemma star_keeps {R : Type} (p : char -> bool) (k : str -> option R) (s : str) :
  k s <> None -> star p k s <> None.
Proof.
  destruct s as [|c s]; simpl; [trivial|].
  destruct (p c); [|trivial].
  destruct (star p k s); [discriminate|trivial].
Qed.

Lemma run_label (input : str) (L : str) (pat : list node)
      (opened : str) (cap : option str) (s : str) :
  run input true (map Chr L ++ pat) opened cap s =
  match stripPrefixCI L s with
  | Some post => run input true pat opened cap post
  | None => None
  end.
Proof.
  revert s. induction L as [|a L IH]; intros s; [reflexivity|].
  destruct s as [|x s]; [reflexivity|].
  simpl. unfold sameChar. destruct (canonicalize a =? canonicalize x); [apply IH|reflexivity].
Qed.

Lemma run_tail (input : str) (cls : char -> bool) (opened : str)
      (cap : option str) (s : str) :
  run input true (tailPattern cls) opened cap s = valueAt cls s.
Proof. reflexivity. Qed.

Lemma stripPrefixCI_split (L s post : str) :
  stripPrefixCI L s = Some post ->
  exists l, s = l ++ post /\ List.length l = List.length L /\ sameCI L l.
Proof.
  revert s. induction L as [|a L IH]; intros s H.
  - exists []. simpl in H. injection H as ->. repeat split. constructor.
  - destruct s as [|x s]; [discriminate|]. simpl in H.
    destruct (canonicalize a =? canonicalize x) eqn:E; [|discriminate].
    destruct (IH _ H) as (l & -> & Hlen & Hci).
    exists (x :: l). simpl. repeat split; [congruence|].
    constructor; [apply N.eqb_eq; exact E|exact Hci].
Qed.

Lemma stripPrefixCI_same (L l post : str) :
  sameCI L l -> stripPrefixCI L (l ++ post) = Some post.
Proof.
  induction 1 as [|a x L l Hax _ IH]; [reflexivity|].
  simpl. rewrite Hax, N.eqb_refl. exact IH.
Qed.

Lemma afterLabel_here (L s post : str) :
  stripPrefixCI L s = Some post -> afterLabel L s = Some post.
Proof. intros H. destruct s; cbn [afterLabel]; rewrite H; reflexivity. Qed.

Section CaptureClass.

Variable cls : char -> bool.

(** The class of the capture group takes every character that is not
    white space, and leaves out line terminators at most. *)
Hypothesis cls_black : forall c, isWhiteSpace c = false -> cls c = true.
Hypothesis cls_blank : forall c, cls c = false -> isLineTerminator c = true.

Lemma captureAt_head (x : char) (s : str) :
  cls x = true -> captureAt cls (x :: s) = Some (Some (takeWhile cls (x :: s))).
Proof.
  intros Hx. unfold captureAt. simpl. rewrite Hx.
  apply star_greedy. simpl.
  pose proof (firstn_takeWhile cls (x :: s)) as F.
  simpl in F. rewrite Hx in F. simpl in F. rewrite <- F. reflexivity.
Qed.

Lemma valueAt_value (post : str) :
  trimStart post <> [] ->
  valueAt cls post = Some (Some (takeWhile cls (trimStart post))).
Proof.
  unfold valueAt. induction post as [|c post IH]; simpl; [congruence|].
  destruct (isWhiteSpace c) eqn:E.
  - intros H. rewrite (IH H). reflexivity.
  - intros _. apply captureAt_head, cls_black, E.
Qed.

Lemma valueAt_blank (post : str) (m : option str) :
  trimStart post = [] -> valueAt cls post = Some m ->
  exists c, m = Some c /\ trimStart c = [].
Proof.
  unfold valueAt. revert m. induction post as [|c post IH]; intros m; simpl.
  - discriminate.
  - destruct (isWhiteSpace c) eqn:E; [|discriminate].
    intros Hb. destruct (star isWhiteSpace (captureAt cls) post) as [r|] eqn:Er.
    + intros H. injection H as <-. apply IH; trivial.
    + destruct (cls c) eqn:Ec.
      * rewrite captureAt_head by exact Ec. intros H. injection H as <-.
        eexists. split; [reflexivity|].
        clear IH Er. simpl. rewrite Ec. simpl. rewrite E.
        induction post as [|d post IHp]; simpl; [reflexivity|].
        simpl in Hb. destruct (isWhiteSpace d) eqn:Ed; [|discriminate].
        destruct (cls d); simpl; [rewrite Ed; apply IHp, Hb|reflexivity].
      * unfold captureAt. simpl. rewrite Ec. discriminate.
Qed.

Lemma valueAt_none (post : str) :
  valueAt cls post = None -> forallb isLineTerminator post = true.
Proof.
  unfold valueAt. induction post as [|c post IH]; simpl; [trivial|].
  destruct (isWhiteSpace c) eqn:E.
  - destruct (star isWhiteSpace (captureAt cls) post); [discriminate|].
    destruct (cls c) eqn:Ec.
    + rewrite captureAt_head by exact Ec. discriminate.
    + intros _. rewrite (cls_blank _ Ec), IH; reflexivity.
  - rewrite captureAt_head by (apply cls_black, E). discriminate.
Qed.

Variable L : str.

(** The label is not empty and none of its characters stands for a line
    terminator. *)
Hypothesis L_nonempty : L <> [].
Hypothesis L_printable :
  forallb (fun a => negb (isLineTerminator (canonicalize a))) L = true.

Lemma label_not_in_blank (l post : str) :
  (List.length l < List.length L)%nat ->
  forallb isLineTerminator post = true ->
  stripPrefixCI L (l ++ post) = None.
Proof.
  clear L_nonempty. revert l L_printable.
  induction L as [|a L' IH]; intros l Hp Hlen Hpost; [simpl in Hlen; lia|].
  simpl in Hp. apply andb_true_iff in Hp. destruct Hp as [Ha Hp].
  destruct l as [|y l]; simpl.
  - destruct post as [|x post]; [reflexivity|].
    simpl in Hpost. apply andb_true_iff in Hpost. destruct Hpost as [Hx _].
    destruct (canonicalize a =? canonicalize x) eqn:E; [|reflexivity].
    apply N.eqb_eq in E. rewrite E, (canonicalize_terminator _ Hx), Hx in Ha.
    discriminate.
  - destruct (canonicalize a =? canonicalize y); [|reflexivity].
    apply IH; [exact Hp|simpl in Hlen; lia|exact Hpost].
Qed.

Lemma no_match_in_blank (input : str) (l post : str) :
  (List.length l < List.length L)%nat ->
  forallb isLineTerminator post = true ->
  execFrom input true (map Chr L ++ tailPattern cls) (l ++ post) = None.
Proof.
  revert post. induction l as [|y l IH]; intros post Hlen Hpost.
  - induction post as [|x post IHp].
    + simpl app. simpl execFrom. rewrite run_label.
      pose proof (label_not_in_blank [] [] Hlen Hpost) as E.
      simpl app in E. rewrite E. reflexivity.
    + simpl app. simpl execFrom. rewrite run_label.
      pose proof (label_not_in_blank [] (x :: post) Hlen Hpost) as E.
      simpl app in E. rewrite E.
      simpl in Hpost. apply andb_true_iff in Hpost. apply IHp, Hpost.
  - simpl app. simpl execFrom. rewrite run_label.
    change (y :: l ++ post) with ((y :: l) ++ post).
    rewrite label_not_in_blank by trivial.
    apply IH; [simpl in Hlen; lia|exact Hpost].
Qed.

(** The match, if there is one, stands at the first occurrence of the
    label. *)
Lemma execFrom_label (input s : str) :
  execFrom input true (map Chr L ++ tailPattern cls) s =
  match afterLabel L s with
  | Some post => valueAt cls post
  | None => None
  end.
Proof.
  induction s as [|x s IH].
  - simpl execFrom. simpl afterLabel. rewrite run_label.
    destruct (stripPrefixCI L []) as [post|] eqn:E; [|reflexivity].
    destruct L; [congruence|discriminate].
  - simpl execFrom. simpl afterLabel. rewrite run_label.
    destruct (stripPrefixCI L (x :: s)) as [post|] eqn:E; [|exact IH].
    rewrite run_tail. destruct (valueAt cls post) as [m|] eqn:Ev; [reflexivity|].
    destruct (stripPrefixCI_split _ _ _ E) as (l & Hs & Hlen & _).
    destruct l as [|y l].
    + destruct L; [congruence|discriminate].
    + simpl in Hs. injection Hs as _ ->.
      apply no_match_in_blank; [simpl in Hlen; lia|].
      apply valueAt_none, Ev.
Qed.

End CaptureClass.

(** ** Facts on the label expressions *)

Section LabelExpressions.

Variable name : string.
Variable cls : char -> bool.

Hypothesis cls_black : forall c, isWhiteSpace c = false -> cls c = true.
Hypothesis cls_blank : forall c, cls c = false -> isLineTerminator c = true.
Hypothesis name_nonempty : js name <> [].
Hypothesis name_printable :
  forallb (fun a => negb (isLineTerminator (canonicalize a))) (js name) = true.

Let re : regexp := mkRegExp (lit name ++ tailPattern cls) true.

Lemma exec_label (text : str) :
  exec re text =
  match afterLabel (js name) text with
  | Some post => valueAt cls post
  | None => None
  end.
Proof.
  unfold exec, re, lit. simpl source. simpl ignoreCase.
  apply execFrom_label; assumption.
Qed.

Lemma exec_absent (text : str) :
  afterLabel (js name) text = None -> exec re text = None.
Proof. intros H. rewrite exec_label, H. reflexivity. Qed.

Lemma exec_value (text post : str) :
  afterLabel (js name) text = Some post -> trimStart post <> [] ->
  exec re text = Some (Some (takeWhile cls (trimStart post))).
Proof.
  intros H Hp. rewrite exec_label, H. apply valueAt_value; assumption.
Qed.

Lemma exec_blank (text post : str) :
  afterLabel (js name) text = Some post -> trimStart post = [] ->
  exec re text = None \/
  exists c, exec re text = Some (Some c) /\ trim c = [].
Proof.
  intros H Hp. rewrite exec_label, H.
  destruct (valueAt cls post) as [m|] eqn:E; [right|left; reflexivity].
  destruct (valueAt_blank _ _ _ Hp E) as (c & -> & Hc).
  exists c. split; [reflexivity|apply trim_blank, Hc].
Qed.

End LabelExpressions.

Lemma exec_rest (name : string) (text post : str) :
  js name <> [] ->
  forallb (fun a => negb (isLineTerminator (canonicalize a))) (js name) = true ->
  afterLabel (js name) text = Some post -> post <> [] ->
  exists c, exec (mkRegExp (lit name ++ tailPattern isAny) true) text = Some (Some c) /\
            trim c = trim post.
Proof.
  intros Hn Hp H Hpost.
  assert (Hb : forall c, isWhiteSpace c = false -> isAny c = true)
    by (intros; apply isAny_true).
  assert (Hl : forall c, isAny c = false -> isLineTerminator c = true)
    by (intros c Hc; rewrite isAny_true in Hc; discriminate).
  destruct (trimStart post) as [|x r] eqn:E.
  - destruct (exec_blank name isAny Hb Hl Hn Hp text post H E) as [Hnone|(c & Hc & Ht)].
    + rewrite (exec_label name isAny Hb Hl Hn Hp), H in Hnone.
      exfalso. revert Hnone. unfold valueAt.
      destruct post as [|y post]; [congruence|].
      apply star_keeps. rewrite captureAt_head by apply isAny_true. discriminate.
    + exists c. split; [exact Hc|]. rewrite Ht. symmetry. apply trim_blank, E.
  - exists (trimStart post). split.
    + rewrite (exec_value name isAny Hb Hl Hn Hp text post H) by congruence.
      rewrite takeWhile_any. reflexivity.
    + apply trim_trimStart.
Qed.

(** ** Facts on the handlers *)

Lemma cors_headers :
  header "Access-Control-Allow-Headers"
         "Origin, X-Requested-With, Content-Type, Accept, Authorization"
    (header "Access-Control-Allow-Methods" "GET, POST, PUT, DELETE, OPTIONS"
       (header "Access-Control-Allow-Origin" "*" freshResponse)) = corsResponse.
Proof. reflexivity. Qed.

Lemma cors_options (req : request) (next : response -> M response) :
  isMethod req "OPTIONS" = true ->
  cors req freshResponse next = ret (sendStatus 200 corsResponse).
Proof. unfold cors. intros ->. rewrite cors_headers. reflexivity. Qed.

Lemma cors_next (req : request) (next : response -> M response) :
  isMethod req "OPTIONS" = false ->
  cors req freshResponse next = next corsResponse.
Proof. unfold cors. intros ->. rewrite cors_headers. reflexivity. Qed.

Lemma serve_solve (w : World) (b p : jsval) :
  field b "problem" = p -> truthy p = true ->
  serve Server.app w (solveRequest b) =
  tryCatch (Server.pipeline p corsResponse)
           (Server.fallback (solveRequest b) corsResponse) w [].
Proof.
  intros Hp Ht. unfold serve, Server.app.
  rewrite cors_next by reflexivity.
  change (Server.routes (solveRequest b) corsResponse)
    with (Server.solve (solveRequest b) corsResponse).
  unfold Server.solve. simpl body. rewrite Hp, Ht. reflexivity.
Qed.

Lemma serve_solve1 (w : World) (b p : jsval) :
  field b "problem" = p -> truthy p = true ->
  serve Server1.app w (solveRequest b) =
  tryCatch (Server1.pipeline p corsResponse)
           (fun e => ret (json (Server.failed e) (setStatus 500 corsResponse))) w [].
Proof.
  intros Hp Ht. unfold serve, Server1.app.
  rewrite cors_next by reflexivity.
  change (Server1.routes (solveRequest b) corsResponse)
    with (Server1.solve (solveRequest b) corsResponse).
  unfold Server1.solve. simpl body. rewrite Hp, Ht. reflexivity.
Qed.

Lemma fallback_run (w : World) (b p : jsval) (e : error) (tr : list call) :
  field b "problem" = p ->
  Server.fallback (solveRequest b) corsResponse e w tr =
  (Ok match generateContent w (List.length tr) (Server.fallbackPrompt p) with
      | Ok t => json (Server.solvedByFallback p t) corsResponse
      | Throw _ => json (Server.failed e) (setStatus 500 corsResponse)
      end,
   tr ++ [Generate (Server.fallbackPrompt p)]).
Proof.
  intros Hp. unfold Server.fallback, tryCatch, bind, generate, ret.
  simpl body. rewrite Hp.
  destruct (generateContent w (List.length tr) (Server.fallbackPrompt p)); reflexivity.
Qed.

(** ** The input guard of POST /solve *)

(** C3: a POST to /solve whose body is [{}] or [{problem: ""}] is answered,
    by both servers, with status 400 and the JSON body
    [{error: "Problem statement is required"}], and no upstream call is
    made. *)
Theorem missing_problem_rejected (w : World) :
  let rejected :=
    (Ok (mkResponse 400 (headers corsResponse)
           (Json (JObj [ (js "error", JStr (js "Problem statement is required")) ]))),
     @nil call) in
  serve Server.app w (solveRequest (JObj [])) = rejected /\
  serve Server.app w (solveRequest (JObj [ (js "problem", JStr []) ])) = rejected /\
  serve Server1.app w (solveRequest (JObj [])) = rejected /\
  serve Server1.app w (solveRequest (JObj [ (js "problem", JStr []) ])) = rejected.
Proof. repeat split; reflexivity. Qed.

(** ** The CORS middleware *)

(** C9, as the servers have it: an OPTIONS request to any path and with any
    body is answered by the middleware itself, whatever handler comes next:
    status 200, the three CORS headers, no upstream call; the body is the
    status text "OK" that [res.sendStatus] sends, not an empty one. *)
Theorem options_short_circuit (w : World) (p : str) (b : jsval)
        (next : response -> M response) :
  let req := mkRequest (js "OPTIONS") p b in
  let answer := mkResponse 200 (headers corsResponse) (Text (js "OK")) in
  cors req freshResponse next w [] = (Ok answer, []) /\
  serve Server.app w req = (Ok answer, []) /\
  serve Server1.app w req = (Ok answer, []) /\
  getHeader answer "Access-Control-Allow-Origin" = Some (js "*") /\
  getHeader answer "Access-Control-Allow-Methods"
    = Some (js "GET, POST, PUT, DELETE, OPTIONS") /\
  getHeader answer "Access-Control-Allow-Headers"
    = Some (js "Origin, X-Requested-With, Content-Type, Accept, Authorization").
Proof.
  intros req answer.
  assert (H : forall k, cors req freshResponse k w [] = (Ok answer, [])).
  { intros k. rewrite cors_options by reflexivity. reflexivity. }
  repeat split; try apply H; reflexivity.
Qed.

(** C9 as stated fails: the body of the answer to OPTIONS /solve is the
    text "OK", which is not empty. *)
Lemma options_body_not_empty :
  exists res,
    serve Server.app (scripted []) (mkRequest (js "OPTIONS") (js "/solve") (JObj []))
      = (Ok res, []) /\
    status res = 200%nat /\
    payload_of res = Text (js "OK") /\
    payload_of res <> NoBody /\ payload_of res <> Text [].
Proof.
  eexists. split; [reflexivity|].
  repeat split; simpl; discriminate.
Qed.

(** ** The health endpoint *)

(** C10: GET /health is answered with status "healthy" by both servers
    whatever the configuration; the answer depends on the credential only
    through [services.gemini], which tells whether GEMINI_API_KEY is set and
    not empty, so two different credentials give the same answer. *)
Theorem health_always_healthy (w : World) (b : jsval) :
  let req := mkRequest (js "GET") (js "/health") b in
  serve Server.app w req =
    (Ok (mkResponse 200 (headers corsResponse)
           (Json (JObj [
              (js "status", JStr (js "healthy"));
              (js "services", JObj [
                 (js "gemini", JBool (keyConfigured w));
                 (js "method",
                  JStr (js "gemini-only (newton api removed for reliability)")) ]) ]))),
     []) /\
  serve Server1.app w req =
    (Ok (mkResponse 200 (headers corsResponse)
           (Json (JObj [
              (js "status", JStr (js "healthy"));
              (js "services", JObj [
                 (js "gemini", JBool (keyConfigured w));
                 (js "newton", JStr (js "available (no key required)")) ]) ]))),
     []) /\
  (forall g n l c1 k1 c2 k2,
      serve Server.app (mkWorld g n l (Some (c1 :: k1))) req =
      serve Server.app (mkWorld g n l (Some (c2 :: k2))) req /\
      serve Server1.app (mkWorld g n l (Some (c1 :: k1))) req =
      serve Server1.app (mkWorld g n l (Some (c2 :: k2))) req).
Proof.
  intros req. unfold keyConfigured.
  split; [|split].
  - destruct w as [g n l [[|c k]|]]; reflexivity.
  - destruct w as [g n l [[|c k]|]]; reflexivity.
  - intros. split; reflexivity.
Qed.

(** ** The structured-text parser *)

Lemma exec_line_value (name : string) (text post : str) :
  js name <> [] ->
  forallb (fun a => negb (isLineTerminator (canonicalize a))) (js name) = true ->
  afterLabel (js name) text = Some post -> trimStart post <> [] ->
  exec (mkRegExp (lit name ++ tailPattern isDot) true) text
  = Some (Some (firstLine (trimStart post))).
Proof.
  intros Hn Hp. apply exec_value; trivial.
  - apply black_is_dot.
  - apply not_dot_is_terminator.
Qed.

Lemma exec_line_absent (name : string) (text : str) :
  js name <> [] ->
  forallb (fun a => negb (isLineTerminator (canonicalize a))) (js name) = true ->
  afterLabel (js name) text = None ->
  exec (mkRegExp (lit name ++ tailPattern isDot) true) text = None.
Proof.
  intros Hn Hp. apply exec_absent; trivial.
  - apply black_is_dot.
  - apply not_dot_is_terminator.
Qed.


Ltac label_facts :=
  first [ discriminate | reflexivity | assumption
        | apply black_is_dot | apply not_dot_is_terminator
        | intros; apply isAny_true
        | intros ? Hany; rewrite isAny_true in Hany; discriminate ].

(** C6, as the parser has it: the example text is parsed into the four
    values of the claim; a label is recognised in any letter case and at its
    first occurrence; after the label, white space is skipped, line breaks
    included, and a single-line field is the rest of the line on which the
    next character stands, trimmed (so a field whose own line is blank after
    the label takes the line that follows); the steps field is all the text
    after its label, trimmed. *)
Theorem structured_text_parsed (text post : str) (problem : jsval) :
  Server.parse structuredSample problem
  = Server.mkAnalysis (js "derivative") (JStr (js "x^2")) (js "2x")
                      (js "apply power rule") /\
  (forall L l rest, sameCI L l -> afterLabel L (l ++ rest) = Some rest) /\
  (afterLabel (js "OPERATION:") text = Some post -> trimStart post <> [] ->
   Server.operation (Server.parse text problem)
   = trim (firstLine (trimStart post))) /\
  (afterLabel (js "EXPRESSION:") text = Some post -> trimStart post <> [] ->
   Server.expression (Server.parse text problem)
   = JStr (trim (firstLine (trimStart post)))) /\
  (afterLabel (js "RESULT:") text = Some post -> trimStart post <> [] ->
   Server.result (Server.parse text problem)
   = trim (firstLine (trimStart post))) /\
  (afterLabel (js "STEPS:") text = Some post -> post <> [] ->
   Server.steps (Server.parse text problem) = trim post).
Proof.
  split; [reflexivity|]. split.
  { intros L l rest H. apply afterLabel_here, stripPrefixCI_same, H. }
  unfold Server.parse. simpl.
  repeat split; intros H Hp.
  - change Server.reOPERATION
      with (mkRegExp (lit "OPERATION:" ++ tailPattern isDot) true).
    rewrite (exec_line_value _ _ post) by label_facts. reflexivity.
  - change Server.reEXPRESSION
      with (mkRegExp (lit "EXPRESSION:" ++ tailPattern isDot) true).
    rewrite (exec_line_value _ _ post) by label_facts. reflexivity.
  - change Server.reRESULT
      with (mkRegExp (lit "RESULT:" ++ tailPattern isDot) true).
    rewrite (exec_line_value _ _ post) by label_facts. reflexivity.
  - change Server.reSTEPS
      with (mkRegExp (lit "STEPS:" ++ tailPattern isAny) true).
    destruct (exec_rest "STEPS:" text post) as (c & -> & Hc); label_facts.
Qed.

Lemma structured_text_parsed_witness :
  Server.operation (Server.parse structuredSample JNull)
  = trim (firstLine (trimStart (skipn 10 structuredSample))) /\
  Server.expression (Server.parse structuredSample JNull)
  = JStr (trim (firstLine (trimStart (skipn 33 structuredSample)))) /\
  Server.result (Server.parse structuredSample JNull)
  = trim (firstLine (trimStart (skipn 45 structuredSample))) /\
  Server.steps (Server.parse structuredSample JNull)
  = trim (skipn 55 structuredSample).
Proof.
  split; [|split; [|split]].
  - apply (proj1 (proj2 (proj2
             (structured_text_parsed structuredSample
                (skipn 10 structuredSample) JNull))));
      [reflexivity | vm_compute; discriminate].
  - apply (proj1 (proj2 (proj2 (proj2
             (structured_text_parsed structuredSample
                (skipn 33 structuredSample) JNull)))));
      [reflexivity | vm_compute; discriminate].
  - apply (proj1 (proj2 (proj2 (proj2 (proj2
             (structured_text_parsed structuredSample
                (skipn 45 structuredSample) JNull))))));
      [reflexivity | vm_compute; discriminate].
  - apply (proj2 (proj2 (proj2 (proj2 (proj2
             (structured_text_parsed structuredSample
                (skipn 55 structuredSample) JNull))))));
      [reflexivity | vm_compute; discriminate].
Defined.

Example first_result_wins :
  Server.result (Server.parse (js "RESULT: 1" ++ nl ++ js "Result: 2") JNull)
  = js "1".
Proof. reflexivity. Qed.

(** C6 as stated fails: when the line of OPERATION: is blank after the
    label, the operation is not the (empty) rest of that line but the line
    that follows. *)
Lemma rest_of_line_refuted :
  exists post,
    afterLabel (js "OPERATION:") brokenLineSample = Some post /\
    firstLine post = [] /\
    Server.operation (Server.parse brokenLineSample JNull) = js "EXPRESSION: x^2" /\
    Server.operation (Server.parse brokenLineSample JNull) <> firstLine post /\
    Server.operation (Server.parse brokenLineSample JNull) <> trim (firstLine post).
Proof.
  eexists. split; [reflexivity|].
  repeat split; vm_compute; discriminate.
Qed.




(** ** The pipeline of server.js *)

Lemma pipeline_run (w : World) (p : jsval) (res : response) :
  Server.pipeline p res w [] =
  match generateContent w 0 (Server.geminiPrompt p) with
  | Throw e => (Throw e, [Generate (Server.geminiPrompt p)])
  | Ok text =>
      let a := Server.parse text p in
      if Server.derivativeOfNumber a
      then (Throw Server.validationError, [Generate (Server.geminiPrompt p)])
      else
        match generateContent w 1 (Server.explanationPrompt p a) with
        | Throw e =>
            (Throw e, [Generate (Server.geminiPrompt p);
                       Generate (Server.explanationPrompt p a)])
        | Ok explanation =>
            (Ok (json (Server.solved p a explanation text) res),
             [Generate (Server.geminiPrompt p);
              Generate (Server.explanationPrompt p a)])
        end
  end.
Proof.
  unfold Server.pipeline, bind, generate, throw, ret.
  change (List.length (@nil call)) with 0%nat.
  destruct (generateContent w 0 (Server.geminiPrompt p)) as [text|e]; [|reflexivity].
  cbv zeta. change ([] ++ [Generate (Server.geminiPrompt p)])
    with [Generate (Server.geminiPrompt p)].
  destruct (Server.derivativeOfNumber (Server.parse text p)); [reflexivity|].
  change (List.length [Generate (Server.geminiPrompt p)]) with 1%nat.
  destruct (generateContent w 1 _); reflexivity.
Qed.

Lemma lowerChar_same (a x : char) :
  isLowerAscii a = true -> canonicalize a = canonicalize x -> lowerChar x = [a].
Proof.
  unfold canonicalize, lowerChar, isUpperAscii, isLowerAscii.
  intros Ha Hc.
  apply andb_true_iff in Ha. destruct Ha as [H1 H2].
  rewrite H1, H2 in Hc. cbn [andb] in Hc.
  apply N.leb_le in H1, H2. revert Hc.
  destruct (N.leb_spec 97 x), (N.leb_spec x 122),
           (N.leb_spec 65 x), (N.leb_spec x 90),
           (N.eqb_spec x 304), (N.eqb_spec x 8490);
    cbn [andb]; intros Hc; try lia;
    (replace (x + 32) with a by lia) || (replace x with a by lia); reflexivity.
Qed.

Lemma toLowerCase_same (L d : str) :
  forallb isLowerAscii L = true -> sameCI L d -> toLowerCase d = L.
Proof.
  intros HL H. induction H as [|a x L d Hax _ IH]; [reflexivity|].
  simpl in HL. apply andb_true_iff in HL. destruct HL as [Ha HL].
  unfold toLowerCase. simpl. rewrite (lowerChar_same a x Ha Hax).
  simpl. f_equal. apply IH, HL.
Qed.

Lemma includes_any_case (x d y L : str) :
  forallb isLowerAscii L = true -> sameCI L d ->
  includes (toLowerCase (x ++ d ++ y)) L = true.
Proof.
  intros HL H. unfold toLowerCase. rewrite !flat_map_app.
  fold (toLowerCase d). rewrite (toLowerCase_same L d HL H).
  apply includes_app.
Qed.

Lemma test_digits (s : str) :
  s <> [] -> forallb isDigit s = true -> test Server.reDigits s = true.
Proof.
  intros Hs Hd. unfold test, exec. simpl source. simpl ignoreCase.
  destruct s as [|x s]; [congruence|].
  simpl in Hd. apply andb_true_iff in Hd. destruct Hd as [Hx Hd].
  cbn [execFrom run]. rewrite Nat.eqb_refl, Hx.
  rewrite (star_all isDigit _ s None Hd); reflexivity.
Qed.

(** C4: when the operation parsed from the completion contains "deriv" in
    any letter case and the parsed result consists of digits only (at least
    one), the validation error is thrown: no explanation is asked for, the
    fallback completion is issued, and the answer is the fallback's (or the
    500 carrying the validation message), never the answer that gives the
    digits as the result of the pipeline. *)
Theorem derivative_of_number_routed (w : World) (b : jsval)
        (s text x d y : str) :
  field b "problem" = JStr s -> s <> [] ->
  generateContent w 0 (Server.geminiPrompt (JStr s)) = Ok text ->
  Server.operation (Server.parse text (JStr s)) = x ++ d ++ y ->
  sameCI (js "deriv") d ->
  Server.result (Server.parse text (JStr s)) <> [] ->
  forallb isDigit (Server.result (Server.parse text (JStr s))) = true ->
  Server.derivativeOfNumber (Server.parse text (JStr s)) = true /\
  Server.pipeline (JStr s) corsResponse w []
  = (Throw Server.validationError, [Generate (Server.geminiPrompt (JStr s))]) /\
  serve Server.app w (solveRequest b) =
  (Ok match generateContent w 1 (Server.fallbackPrompt (JStr s)) with
      | Ok t => json (Server.solvedByFallback (JStr s) t) corsResponse
      | Throw _ =>
          json (Server.failed Server.validationError) (setStatus 500 corsResponse)
      end,
   [Generate (Server.geminiPrompt (JStr s));
    Generate (Server.fallbackPrompt (JStr s))]).
Proof.
  intros Hb Hs Hgen Hop Hd Hr Hdig.
  assert (Hv : Server.derivativeOfNumber (Server.parse text (JStr s)) = true).
  { unfold Server.derivativeOfNumber. rewrite Hop.
    rewrite includes_any_case by (trivial; reflexivity).
    rewrite test_digits by assumption. reflexivity. }
  assert (Hpipe : Server.pipeline (JStr s) corsResponse w []
                  = (Throw Server.validationError,
                     [Generate (Server.geminiPrompt (JStr s))])).
  { rewrite pipeline_run, Hgen. cbv zeta. rewrite Hv. reflexivity. }
  split; [exact Hv|]. split; [exact Hpipe|].
  rewrite (serve_solve w b (JStr s) Hb)
    by (destruct s; [congruence|reflexivity]).
  unfold tryCatch. rewrite Hpipe.
  rewrite (fallback_run w b (JStr s) _ _ Hb). reflexivity.
Qed.

Lemma derivative_of_number_routed_witness :
  let w := scripted [ Ok (js "OPERATION: Derivative" ++ nl ++ js "RESULT: 7");
                      Ok (js "The derivative is 7.") ] in
  fst (serve Server.app w (solveRequest (JObj [ (js "problem", JStr (js "d/dx of 7x")) ])))
  = Ok (json (Server.solvedByFallback (JStr (js "d/dx of 7x"))
                                      (js "The derivative is 7."))
             corsResponse).
Proof.
  intros w.
  rewrite (proj2 (proj2
    (derivative_of_number_routed w
       (JObj [ (js "problem", JStr (js "d/dx of 7x")) ]) (js "d/dx of 7x")
       (js "OPERATION: Derivative" ++ nl ++ js "RESULT: 7")
       [] (js "Deriv") (js "ative")
       eq_refl ltac:(discriminate) eq_refl eq_refl
       ltac:(repeat constructor) ltac:(vm_compute; discriminate) eq_refl))).
  reflexivity.
Defined.

(** ** The fallback branch of server.js *)

Lemma pipeline_calls (w : World) (p : jsval) (res : response) (e : error)
      (tr : list call) :
  Server.pipeline p res w [] = (Throw e, tr) ->
  tr = [Generate (Server.geminiPrompt p)] \/
  exists a, tr = [Generate (Server.geminiPrompt p);
                  Generate (Server.explanationPrompt p a)].
Proof.
  rewrite pipeline_run.
  destruct (generateContent w 0 (Server.geminiPrompt p)) as [text|e0].
  - cbv zeta. destruct (Server.derivativeOfNumber (Server.parse text p)).
    + intros H. injection H as _ <-. left. reflexivity.
    + destruct (generateContent w 1 _); [discriminate|].
      intros H. injection H as _ <-. right. eexists. reflexivity.
  - intros H. injection H as _ <-. left. reflexivity.
Qed.

(** C1, as server.js has it: when the pipeline of POST /solve throws (a
    completion fails or the validation trips), one more completion is
    issued, with the prompt "Solve this math problem: " followed by the
    problem text, which the pipeline has not issued before, and nothing
    else.  If it succeeds the answer is a 200 with
    success true, the raw completion as calculation.result, the method tag
    "gemini-fallback" and analysis.operation "general"; if it fails the
    answer is a 500 with success false whose details are the message of the
    first failure. *)
Theorem fallback_after_failure (w : World) (b : jsval) (s : str) (e : error)
        (tr : list call) :
  field b "problem" = JStr s -> s <> [] ->
  Server.pipeline (JStr s) corsResponse w [] = (Throw e, tr) ->
  let prompt := js "Solve this math problem: " ++ s in
  serve Server.app w (solveRequest b) =
  (Ok match generateContent w (List.length tr) prompt with
      | Ok t =>
          mkResponse 200 (headers corsResponse)
                     (Json (Server.solvedByFallback (JStr s) t))
      | Throw _ =>
          mkResponse 500 (headers corsResponse)
            (Json (JObj [
               (js "success", JBool false);
               (js "error", JStr (js "Failed to solve math problem"));
               (js "details", JStr (message e)) ]))
      end,
   tr ++ [Generate prompt]) /\
  ~ In (Generate prompt) tr /\
  (forall t,
     let v := Server.solvedByFallback (JStr s) t in
     field v "success" = JBool true /\
     field (field v "calculation") "result" = JStr t /\
     field (field v "calculation") "method" = JStr (js "gemini-fallback") /\
     field (field v "analysis") "operation" = JStr (js "general")).
Proof.
  intros Hb Hs Hpipe prompt. split; [|split; [|intros t; repeat split]].
  2: { destruct (pipeline_calls _ _ _ _ _ Hpipe) as [->|(a & ->)];
       simpl; intros H; repeat (destruct H as [H|H]; [discriminate H|]); exact H. }
  rewrite (serve_solve w b (JStr s) Hb)
    by (destruct s; [congruence|reflexivity]).
  unfold tryCatch. rewrite Hpipe.
  rewrite (fallback_run w b (JStr s) _ _ Hb).
  change (Server.fallbackPrompt (JStr s)) with prompt.
  destruct (generateContent w (List.length tr) prompt); reflexivity.
Qed.

Lemma fallback_after_failure_witness :
  let w := scripted [ Throw (mkError (js "quota exceeded")); Ok (js "x = 2") ] in
  fst (serve Server.app w (solveRequest (JObj [ (js "problem", JStr (js "2x = 4")) ])))
  = Ok (mkResponse 200 (headers corsResponse)
          (Json (Server.solvedByFallback (JStr (js "2x = 4")) (js "x = 2")))).
Proof.
  intros w.
  rewrite (proj1
    (fallback_after_failure w
       (JObj [ (js "problem", JStr (js "2x = 4")) ]) (js "2x = 4")
       (mkError (js "quota exceeded"))
       [Generate (Server.geminiPrompt (JStr (js "2x = 4")))]
       eq_refl ltac:(discriminate) eq_refl)).
  reflexivity.
Defined.

(** C1 as stated fails: after a failed analysis completion and a successful
    fallback, the method tag of the answer is "gemini-fallback", not
    "fallback". *)
Lemma fallback_method_tag_refuted :
  let w := scripted [ Throw (mkError (js "quota exceeded")); Ok (js "x = 2") ] in
  exists res tr v,
    serve Server.app w (solveRequest (JObj [ (js "problem", JStr (js "2x = 4")) ]))
      = (Ok res, tr) /\
    payload_of res = Json v /\
    status res = 200%nat /\
    field v "success" = JBool true /\
    field (field v "calculation") "method" = JStr (js "gemini-fallback") /\
    field (field v "calculation") "method" <> JStr (js "fallback").
Proof.
  intros w. eexists. eexists. eexists.
  split; [reflexivity|]. split; [reflexivity|].
  split; [reflexivity|]. split; [reflexivity|].
  split; [reflexivity|]. vm_compute. discriminate.
Qed.

(** ** The answers of POST /solve *)

Ltac upstream :=
  match goal with
  | |- context [match generateContent ?w ?n ?p with _ => _ end] =>
      destruct (generateContent w n p)
  | |- context [match newtonGet ?w ?n ?o ?x with _ => _ end] =>
      destruct (newtonGet w n o x)
  | |- context [match getField ?v ?k with _ => _ end] =>
      destruct (getField v k)
  end; cbv beta iota.

(** C2, as the servers have it: for a problem that is a non-empty string,
    POST /solve is answered either with status 200 and a JSON body with
    success true, the problem as originalProblem and a string as
    analysis.operation (in server.js also a string as calculation.result),
    or with status 500 and a JSON body with success false; never with a 200
    whose success is false.  The strings may be empty, and in server1.js
    calculation.result is what the Newton data has under result, which may
    be missing. *)
Theorem solve_answers (w : World) (b : jsval) (s : str) :
  field b "problem" = JStr s -> s <> [] ->
  (exists res tr v,
     serve Server.app w (solveRequest b) = (Ok res, tr) /\
     payload_of res = Json v /\
     ((status res = 200%nat /\ field v "success" = JBool true /\
       field v "originalProblem" = JStr s /\
       (exists operation, field (field v "analysis") "operation" = JStr operation) /\
       (exists result, field (field v "calculation") "result" = JStr result)) \/
      (status res = 500%nat /\ field v "success" = JBool false))) /\
  (exists res tr v,
     serve Server1.app w (solveRequest b) = (Ok res, tr) /\
     payload_of res = Json v /\
     ((status res = 200%nat /\ field v "success" = JBool true /\
       field v "originalProblem" = JStr s /\
       (exists operation, field (field v "analysis") "operation" = JStr operation)) \/
      (status res = 500%nat /\ field v "success" = JBool false))).
Proof.
  intros Hb Hs.
  assert (Ht : truthy (JStr s) = true) by (destruct s; [congruence|reflexivity]).
  split.
  - rewrite (serve_solve w b (JStr s) Hb Ht). unfold tryCatch.
    rewrite pipeline_run.
    destruct (generateContent w 0 (Server.geminiPrompt (JStr s))) as [text|e].
    + cbv zeta.
      destruct (Server.derivativeOfNumber (Server.parse text (JStr s))).
      * rewrite (fallback_run w b (JStr s) _ _ Hb).
        upstream; do 3 eexists; (split; [reflexivity|]);
          (split; [reflexivity|]); [left|right];
          repeat first [reflexivity | split | eexists].
      * upstream.
        -- do 3 eexists. split; [reflexivity|]. split; [reflexivity|].
           left. repeat first [reflexivity | split | eexists].
        -- rewrite (fallback_run w b (JStr s) _ _ Hb).
           upstream; do 3 eexists; (split; [reflexivity|]);
             (split; [reflexivity|]); [left|right];
             repeat first [reflexivity | split | eexists].
    + rewrite (fallback_run w b (JStr s) _ _ Hb).
      upstream; do 3 eexists; (split; [reflexivity|]);
        (split; [reflexivity|]); [left|right];
        repeat first [reflexivity | split | eexists].
  - rewrite (serve_solve1 w b (JStr s) Hb Ht).
    unfold tryCatch, Server1.pipeline, bind, generate, Server1.compute,
      Server1.callNewtonAPI, tryCatch, axiosGetNewton, readField, throw, ret.
    repeat upstream;
      do 3 eexists; (split; [reflexivity|]); (split; [reflexivity|]);
      first [ left; solve [repeat first [reflexivity | split | eexists]]
            | right; solve [repeat first [reflexivity | split | eexists]] ].
Qed.

Lemma solve_answers_witness :
  exists res tr v,
    serve Server.app (scripted [ Ok structuredSample; Ok (js "Use the power rule.") ])
          (solveRequest (JObj [ (js "problem", JStr (js "derive x^2")) ]))
      = (Ok res, tr) /\
    payload_of res = Json v /\
    ((status res = 200%nat /\ field v "success" = JBool true /\
      field v "originalProblem" = JStr (js "derive x^2") /\
      (exists operation, field (field v "analysis") "operation" = JStr operation) /\
      (exists result, field (field v "calculation") "result" = JStr result)) \/
     (status res = 500%nat /\ field v "success" = JBool false)).
Proof.
  apply (proj1
    (solve_answers (scripted [ Ok structuredSample; Ok (js "Use the power rule.") ])
       (JObj [ (js "problem", JStr (js "derive x^2")) ]) (js "derive x^2")
       eq_refl ltac:(discriminate))).
Defined.

(** C2 as stated fails: a completion that ends in "OPERATION: " is answered
    with a 200 whose analysis.operation is the empty string. *)
Lemma empty_operation_answered :
  let w := scripted [ Ok (js "OPERATION: "); Ok (js "No operation was named.") ] in
  exists res tr v,
    serve Server.app w (solveRequest (JObj [ (js "problem", JStr (js "2 + 2")) ]))
      = (Ok res, tr) /\
    payload_of res = Json v /\
    status res = 200%nat /\
    field v "success" = JBool true /\
    field (field v "analysis") "operation" = JStr [].
Proof.
  intros w. do 3 eexists. repeat split.
Qed.

(** In server1.js the result of a 200 answer is what the Newton data has:
    when the data has no result key, calculation.result is undefined. *)
Example dual_result_missing :
  let w := mkWorld (fun _ _ => Ok (js "Operation: simplify"))
                   (fun _ _ _ => Ok (JObj [ (js "operation", JStr (js "simplify")) ]))
                   (fun _ => Throw (mkError (js "no answer"))) None in
  exists res tr v,
    serve Server1.app w (solveRequest (JObj [ (js "problem", JStr (js "2 + 2")) ]))
      = (Ok res, tr) /\
    payload_of res = Json v /\
    status res = 200%nat /\
    field v "success" = JBool true /\
    field (field v "calculation") "result" = JUndefined.
Proof.
  intros w. do 3 eexists. repeat split.
Qed.

(** ** The explanation completion *)

(** C5, as server.js has it: when the explanation completion fails, the
    explanation is not asked for again and the request is not answered with
    an empty explanation; the failure is caught and the fallback completion
    is issued.  The request is answered with the fallback's 200 when that
    succeeds, and fails with a 500, carrying the message of the explanation
    failure, only when the fallback fails as well. *)
Theorem explanation_failure_falls_back (w : World) (b : jsval)
        (s text : str) (e : error) :
  field b "problem" = JStr s -> s <> [] ->
  generateContent w 0 (Server.geminiPrompt (JStr s)) = Ok text ->
  Server.derivativeOfNumber (Server.parse text (JStr s)) = false ->
  generateContent w 1
    (Server.explanationPrompt (JStr s) (Server.parse text (JStr s))) = Throw e ->
  serve Server.app w (solveRequest b) =
  (Ok match generateContent w 2 (Server.fallbackPrompt (JStr s)) with
      | Ok t => json (Server.solvedByFallback (JStr s) t) corsResponse
      | Throw _ => json (Server.failed e) (setStatus 500 corsResponse)
      end,
   [Generate (Server.geminiPrompt (JStr s));
    Generate (Server.explanationPrompt (JStr s) (Server.parse text (JStr s)));
    Generate (Server.fallbackPrompt (JStr s))]) /\
  Server.fallbackPrompt (JStr s)
    <> Server.explanationPrompt (JStr s) (Server.parse text (JStr s)) /\
  Server.geminiPrompt (JStr s)
    <> Server.explanationPrompt (JStr s) (Server.parse text (JStr s)) /\
  (forall t,
     status (json (Server.solvedByFallback (JStr s) t) corsResponse) = 200%nat /\
     field (Server.solvedByFallback (JStr s) t) "success" = JBool true /\
     field (Server.solvedByFallback (JStr s) t) "explanation"
       = JStr (js "Used fallback method to solve the problem.")) /\
  status (json (Server.failed e) (setStatus 500 corsResponse)) = 500%nat /\
  field (Server.failed e) "details" = JStr (message e).
Proof.
  intros Hb Hs Hgen Hv Hex.
  split; [|split; [discriminate|split; [|split; [intros t|]; repeat split]]].
  2: { intros H. injection H as H. discriminate H. }
  rewrite (serve_solve w b (JStr s) Hb)
    by (destruct s; [congruence|reflexivity]).
  unfold tryCatch. rewrite pipeline_run, Hgen. cbv zeta. rewrite Hv, Hex.
  rewrite (fallback_run w b (JStr s) _ _ Hb). reflexivity.
Qed.

Lemma explanation_failure_falls_back_witness :
  let w := scripted [ Ok structuredSample;
                      Throw (mkError (js "overloaded"));
                      Ok (js "2x") ] in
  fst (serve Server.app w (solveRequest (JObj [ (js "problem", JStr (js "derive x^2")) ])))
  = Ok (json (Server.solvedByFallback (JStr (js "derive x^2")) (js "2x")) corsResponse).
Proof.
  intros w.
  rewrite (proj1
    (explanation_failure_falls_back w
       (JObj [ (js "problem", JStr (js "derive x^2")) ]) (js "derive x^2")
       structuredSample (mkError (js "overloaded"))
       eq_refl ltac:(discriminate) eq_refl eq_refl eq_refl)).
  reflexivity.
Defined.

(** C5 as stated fails: with the explanation completion failing and the
    fallback completion succeeding, the request does not fail: it is
    answered with a 200 and success true. *)
Lemma explanation_failure_not_fatal :
  let w := scripted [ Ok structuredSample;
                      Throw (mkError (js "overloaded"));
                      Ok (js "2x") ] in
  exists res v,
    serve Server.app w (solveRequest (JObj [ (js "problem", JStr (js "derive x^2")) ]))
      = (Ok res,
         [Generate (Server.geminiPrompt (JStr (js "derive x^2")));
          Generate (Server.explanationPrompt (JStr (js "derive x^2"))
                      (Server.parse structuredSample (JStr (js "derive x^2"))));
          Generate (js "Solve this math problem: derive x^2")]) /\
    payload_of res = Json v /\
    status res = 200%nat /\
    field v "success" = JBool true.
Proof.
  intros w. do 2 eexists. repeat split.
Qed.

(** ** The Newton call of server1.js *)

(** The call and its retry: the first request carries the mapped operation,
    a failure is followed by exactly one request for "simplify" on the same
    expression, and only the failure of that one is thrown. *)
Lemma compute_retry (w : World) (newtonOp expression : jsval) (tr : list call) :
  Server1.compute newtonOp expression w tr =
  let first := NewtonGet (ToString newtonOp) (ToString expression) in
  let second := NewtonGet (js "simplify") (ToString expression) in
  match newtonGet w (List.length tr) (ToString newtonOp) (ToString expression) with
  | Ok data => (Ok data, tr ++ [first])
  | Throw _ =>
      match newtonGet w (List.length (tr ++ [first])) (js "simplify")
                      (ToString expression) with
      | Ok data => (Ok data, (tr ++ [first]) ++ [second])
      | Throw e =>
          (Throw (mkError (js "Newton API error: " ++ message e)),
           (tr ++ [first]) ++ [second])
      end
  end.
Proof.
  unfold Server1.compute, Server1.callNewtonAPI, tryCatch, axiosGetNewton, throw.
  cbv zeta.
  destruct (newtonGet w (List.length tr) (ToString newtonOp) (ToString expression));
    [reflexivity|].
  change (ToString (JStr (js "simplify"))) with (js "simplify").
  destruct (newtonGet w _ (js "simplify") (ToString expression)); reflexivity.
Qed.

(** An operation that names neither a key of the catalog nor a member of
    [Object.prototype] is mapped to "simplify"; a key of the catalog is
    mapped to its token. *)
Lemma newtonOpOf_unknown (operation : str) :
  assoc Server1.NEWTON_OPERATIONS operation = None ->
  assoc objectPrototype operation = None ->
  Server1.newtonOpOf operation = JStr (js "simplify").
Proof.
  unfold Server1.newtonOpOf, getOwnOrInherited. intros -> ->. reflexivity.
Qed.

Lemma newtonOpOf_catalog :
  map (fun kv => Server1.newtonOpOf (fst kv)) Server1.NEWTON_OPERATIONS
  = map snd Server1.NEWTON_OPERATIONS.
Proof. reflexivity. Qed.

(** C8 at its failing input: "constructor" is not a key of the catalog, yet
    line 124 maps it to the function that every object inherits under that
    name, not to "simplify"; the first Newton request of the run carries that
    function's text as its operation, and the retry with "simplify" answers
    the request, whose calculation.method is the function. *)
Theorem inherited_name_not_defaulted :
  let text := js "Operation: constructor" ++ nl ++ js "Expression: x^2" in
  let w := simplifyOnly text (js "Simplified.") in
  let p := JStr (js "constructor of x^2") in
  assoc Server1.NEWTON_OPERATIONS (js "constructor") = None /\
  Server1.operation (Server1.parse text p) = js "constructor" /\
  Server1.newtonOpOf (js "constructor")
  = JFun (js "function Object() { [native code] }") /\
  Server1.newtonOpOf (js "constructor") <> JStr (js "simplify") /\
  exists res v,
    serve Server1.app w (solveRequest (JObj [ (js "problem", p) ]))
    = (Ok res,
       [ Generate (Server1.geminiPrompt p);
         NewtonGet (js "function Object() { [native code] }") (js "x^2");
         NewtonGet (js "simplify") (js "x^2");
         Generate (Server1.explanationPrompt p (Server1.parse text p) (JStr (js "x^2"))) ]) /\
    payload_of res = Json v /\
    status res = 200%nat /\
    field (field v "calculation") "method"
    = JFun (js "function Object() { [native code] }").
Proof.
  intros text w p.
  split; [reflexivity|]. split; [reflexivity|]. split; [reflexivity|].
  split; [vm_compute; discriminate|].
  do 2 eexists. repeat split.
Qed.


(** ** What every answer has in common *)

Lemma eqb_true (a b : str) : Str.eqb a b = true -> a = b.
Proof. unfold Str.eqb. destruct (list_eq_dec N.eq_dec a b); congruence. Qed.

Lemma isRoute_solve (req : request) :
  isRoute req "POST" "/solve" = true -> req = solveRequest (body req).
Proof.
  unfold isRoute. intros H. apply andb_true_iff in H. destruct H as [Hm Hp].
  apply eqb_true in Hm, Hp. destruct req as [m p b]. simpl in *. subst.
  reflexivity.
Qed.

(** The guard of line 30 (line 92 of server1.js) on any falsy problem. *)
Lemma guard_run (w : World) (b : jsval) :
  truthy (field b "problem") = false ->
  serve Server.app w (solveRequest b)
  = (Ok (json Server.problemRequired (setStatus 400 corsResponse)), []) /\
  serve Server1.app w (solveRequest b)
  = (Ok (json Server.problemRequired (setStatus 400 corsResponse)), []).
Proof.
  intros H. unfold serve, Server.app, Server1.app.
  rewrite !cors_next by reflexivity.
  change (Server.routes (solveRequest b) corsResponse)
    with (Server.solve (solveRequest b) corsResponse).
  change (Server1.routes (solveRequest b) corsResponse)
    with (Server1.solve (solveRequest b) corsResponse).
  unfold Server.solve, Server1.solve. simpl body. cbv zeta. rewrite H.
  split; reflexivity.
Qed.

(** The shape of every run of server.js. *)
Lemma app_shape (w : World) (req : request) :
  exists res calls,
    serve Server.app w req = (Ok res, calls) /\
    headers res = headers corsResponse /\
    knownStatus (status res) = true /\
    (List.length calls <= 3)%nat /\
    forallb isGenerate calls = true /\
    (isRoute req "POST" "/solve" = false -> calls = []).
Proof.
  unfold serve, Server.app.
  destruct (isMethod req "OPTIONS") eqn:Eo.
  { rewrite cors_options by exact Eo. do 2 eexists.
    split; [reflexivity|]. repeat split. simpl. lia. }
  rewrite cors_next by exact Eo.
  destruct (isRoute req "POST" "/solve") eqn:Es.
  - pose proof (isRoute_solve req Es) as Hreq. destruct req as [m p b].
    unfold solveRequest in Hreq. cbn [body] in Hreq. injection Hreq as -> ->.
    match goal with
    | |- context [Server.routes ?r _ _ _] => change r with (solveRequest b)
    end.
    clear Eo Es.
    destruct (truthy (field b "problem")) eqn:Et.
    + pose proof (serve_solve w b (field b "problem") eq_refl Et) as Hs.
      unfold serve, Server.app in Hs. rewrite cors_next in Hs by reflexivity.
      rewrite Hs. unfold tryCatch. rewrite pipeline_run.
      destruct (generateContent w 0 _) as [text|e].
      * cbv zeta. destruct (Server.derivativeOfNumber _).
        -- rewrite (fallback_run w b _ _ _ eq_refl).
           do 2 eexists. split; [reflexivity|].
           destruct (generateContent w _ _); repeat split; simpl; try lia; discriminate.
        -- destruct (generateContent w 1 _).
           ++ do 2 eexists. split; [reflexivity|].
              repeat split; simpl; try lia; discriminate.
           ++ rewrite (fallback_run w b _ _ _ eq_refl).
              do 2 eexists. split; [reflexivity|].
              destruct (generateContent w _ _); repeat split; simpl; try lia; discriminate.
      * rewrite (fallback_run w b _ _ _ eq_refl).
        do 2 eexists. split; [reflexivity|].
        destruct (generateContent w _ _); repeat split; simpl; try lia; discriminate.
    + pose proof (proj1 (guard_run w b Et)) as Hs.
      unfold serve, Server.app in Hs. rewrite cors_next in Hs by reflexivity.
      rewrite Hs. do 2 eexists. split; [reflexivity|].
      repeat split; simpl; try lia; discriminate.
  - unfold Server.routes. rewrite Es.
    destruct (isRoute req "GET" "/operations");
      [do 2 eexists; split; [reflexivity|]; repeat split; simpl; lia|].
    destruct (isRoute req "GET" "/");
      [do 2 eexists; split; [reflexivity|]; repeat split; simpl; lia|].
    destruct (isRoute req "GET" "/health");
      [do 2 eexists; split; [reflexivity|]; repeat split; simpl; lia|].
    destruct (isRoute req "GET" "/examples");
      do 2 eexists; (split; [reflexivity|]); repeat split; simpl; lia.
Qed.

(** The shape of every run of server1.js. *)
Lemma app1_shape (w : World) (req : request) :
  exists res calls,
    serve Server1.app w req = (Ok res, calls) /\
    headers res = headers corsResponse /\
    knownStatus (status res) = true /\
    (List.length (filter isGenerate calls) <= 2)%nat /\
    (List.length (filter isNewtonGet calls) <= 2)%nat /\
    (isRoute req "POST" "/solve" = true ->
     forallb (fun c => isGenerate c || isNewtonGet c) calls = true) /\
    (isRoute req "POST" "/solve" = false ->
     calls = [] \/ (isRoute req "GET" "/models" = true /\ calls = [ListModels])).
Proof.
  unfold serve, Server1.app.
  destruct (isMethod req "OPTIONS") eqn:Eo.
  { rewrite cors_options by exact Eo. do 2 eexists.
    split; [reflexivity|]. repeat split; simpl; try lia. intros _. left. reflexivity. }
  rewrite cors_next by exact Eo.
  destruct (isRoute req "POST" "/solve") eqn:Es.
  - pose proof (isRoute_solve req Es) as Hreq. destruct req as [m p b].
    unfold solveRequest in Hreq. cbn [body] in Hreq. injection Hreq as -> ->.
    match goal with
    | |- context [Server1.routes ?r _ _ _] => change r with (solveRequest b)
    end.
    clear Eo Es.
    destruct (truthy (field b "problem")) eqn:Et.
    + pose proof (serve_solve1 w b (field b "problem") eq_refl Et) as Hs.
      unfold serve, Server1.app in Hs. rewrite cors_next in Hs by reflexivity.
      rewrite Hs.
      unfold tryCatch, Server1.pipeline, bind, generate, Server1.compute,
        Server1.callNewtonAPI, tryCatch, axiosGetNewton, readField, throw, ret.
      repeat upstream;
        do 2 eexists; (split; [reflexivity|]);
        repeat split; simpl; try lia; discriminate.
    + pose proof (proj2 (guard_run w b Et)) as Hs.
      unfold serve, Server1.app in Hs. rewrite cors_next in Hs by reflexivity.
      rewrite Hs. do 2 eexists. split; [reflexivity|].
      repeat split; simpl; try lia; discriminate.
  - unfold Server1.routes. rewrite Es.
    destruct (isRoute req "GET" "/operations");
      [do 2 eexists; split; [reflexivity|]; repeat split; simpl; try lia;
       try discriminate; intros _; left; reflexivity|].
    destruct (isRoute req "GET" "/");
      [do 2 eexists; split; [reflexivity|]; repeat split; simpl; try lia;
       try discriminate; intros _; left; reflexivity|].
    destruct (isRoute req "GET" "/health");
      [do 2 eexists; split; [reflexivity|]; repeat split; simpl; try lia;
       try discriminate; intros _; left; reflexivity|].
    destruct (isRoute req "GET" "/examples");
      [do 2 eexists; split; [reflexivity|]; repeat split; simpl; try lia;
       try discriminate; intros _; left; reflexivity|].
    destruct (isRoute req "GET" "/models") eqn:Em.
    + unfold Server1.models, tryCatch, bind, awaitListModels, ret.
      change (List.length (@nil call)) with 0%nat.
      destruct (listModels w 0);
        do 2 eexists; (split; [reflexivity|]); repeat split; simpl; try lia;
        try discriminate; intros _; right; split; reflexivity.
    + do 2 eexists. split; [reflexivity|]. repeat split; simpl; try lia;
        try discriminate. intros _. left. reflexivity.
Qed.

(** Every request is answered: no handler lets an exception escape, the
    answer carries the three CORS headers of the middleware, and its status
    is 200, 400, 404 or 500. *)
Theorem every_request_answered (w : World) (m p : str)
        (fields : list (str * jsval)) :
  let req := mkRequest m p (JObj fields) in
  (exists res calls,
     serve Server.app w req = (Ok res, calls) /\
     headers res = headers corsResponse /\
     knownStatus (status res) = true) /\
  (exists res calls,
     serve Server1.app w req = (Ok res, calls) /\
     headers res = headers corsResponse /\
     knownStatus (status res) = true).
Proof.
  intros req. split.
  - destruct (app_shape w req) as (res & calls & H & Hh & Hk & _).
    exists res, calls. auto.
  - destruct (app1_shape w req) as (res & calls & H & Hh & Hk & _).
    exists res, calls. auto.
Qed.

(** The upstream calls of one request are bounded: server.js issues at most
    three completions and nothing else, and none unless the request is a
    POST to /solve; server1.js issues at most two completions and two Newton
    requests, and nothing else, for a POST to /solve, at most one model
    listing and nothing else for any other request, and nothing at all
    unless the request is a POST to /solve or its path is /models. *)
Theorem upstream_calls_bounded (w : World) (m p : str)
        (fields : list (str * jsval)) :
  let req := mkRequest m p (JObj fields) in
  let calls := snd (serve Server.app w req) in
  let calls1 := snd (serve Server1.app w req) in
  (List.length calls <= 3)%nat /\
  forallb isGenerate calls = true /\
  (isRoute req "POST" "/solve" = false -> calls = []) /\
  (List.length (filter isGenerate calls1) <= 2)%nat /\
  (List.length (filter isNewtonGet calls1) <= 2)%nat /\
  (isRoute req "POST" "/solve" = true ->
   forallb (fun c => isGenerate c || isNewtonGet c) calls1 = true) /\
  (isRoute req "POST" "/solve" = false ->
   (List.length calls1 <= 1)%nat /\ forallb isListModels calls1 = true) /\
  (isRoute req "POST" "/solve" = false -> Str.eqb (path req) (js "/models") = false ->
   calls1 = []).
Proof.
  intros req calls calls1. subst calls calls1.
  destruct (app_shape w req) as (res & calls & -> & _ & _ & H1 & H2 & H3).
  destruct (app1_shape w req) as (res1 & calls1 & -> & _ & _ & G1 & G2 & G3 & G4).
  cbn [snd].
  split; [exact H1|]. split; [exact H2|]. split; [exact H3|].
  split; [exact G1|]. split; [exact G2|]. split; [exact G3|]. split.
  - intros H. destruct (G4 H) as [->|[_ ->]]; split; simpl; try reflexivity; lia.
  - intros H Hm. destruct (G4 H) as [->|[Hm' _]]; [reflexivity|].
    unfold isRoute in Hm'. apply andb_true_iff in Hm'. destruct Hm' as [_ Hm'].
    congruence.
Qed.

Lemma upstream_calls_bounded_witness :
  snd (serve Server.app (scripted [ Ok (js "never asked") ])
         (mkRequest (js "GET") (js "/solve") (JObj [ (js "problem", JStr (js "1 + 1")) ])))
  = [].
Proof.
  apply (proj1 (proj2 (proj2
    (upstream_calls_bounded (scripted [ Ok (js "never asked") ])
       (js "GET") (js "/solve") [ (js "problem", JStr (js "1 + 1")) ])))).
  reflexivity.
Defined.

(** The guard of POST /solve rejects every falsy problem, not only the
    missing and the empty one: undefined, null, false, 0 and "" are all
    answered with the 400 of the guard, before any upstream call. *)
Theorem falsy_problem_rejected (w : World) (fields : list (str * jsval)) :
  truthy (field (JObj fields) "problem") = false ->
  let rejected :=
    (Ok (mkResponse 400 (headers corsResponse)
           (Json (JObj [ (js "error", JStr (js "Problem statement is required")) ]))),
     @nil call) in
  serve Server.app w (solveRequest (JObj fields)) = rejected /\
  serve Server1.app w (solveRequest (JObj fields)) = rejected.
Proof. intros H. exact (guard_run w (JObj fields) H). Qed.

Lemma falsy_problem_rejected_witness :
  snd (serve Server1.app (scripted [])
         (solveRequest (JObj [ (js "problem", JNum 0) ]))) = [].
Proof.
  rewrite (proj2 (falsy_problem_rejected (scripted [])
                    [ (js "problem", JNum 0) ] eq_refl)).
  reflexivity.
Defined.

(** ** The validation of line 79, exactly *)

Lemma star_at_end {R : Type} (p : char -> bool) (k : str -> option R)
      (s : str) :
  (forall c t, k (c :: t) = None) ->
  star p k s <> None -> forallb p s = true.
Proof.
  intros Hk. induction s as [|c s IH]; simpl; [trivial|].
  destruct (p c) eqn:Ec.
  - destruct (star p k s) as [r'|] eqn:E.
    + intros _. apply IH. discriminate.
    + rewrite Hk. congruence.
  - rewrite Hk. congruence.
Qed.

Lemma digits_not_later (input s : str) :
  (List.length s < List.length input)%nat ->
  execFrom input false [Bol; Plus isDigit; Eol] s = None.
Proof.
  induction s as [|x s IH]; intros Hlen; cbn [execFrom run].
  - destruct (Nat.eqb_spec (List.length (@nil char)) (List.length input)) as [E|_];
      [rewrite <- E in Hlen; simpl in Hlen; lia|reflexivity].
  - destruct (Nat.eqb_spec (List.length (x :: s)) (List.length input)) as [E|_];
      [lia|]. apply IH. simpl in Hlen. lia.
Qed.

Lemma test_digits_only (s : str) :
  test Server.reDigits s = true -> s <> [] /\ forallb isDigit s = true.
Proof.
  unfold test, exec. simpl source. simpl ignoreCase.
  destruct s as [|x s]; [discriminate|].
  cbn [execFrom run]. rewrite Nat.eqb_refl.
  destruct (isDigit x) eqn:Ex.
  - destruct (star isDigit _ s) as [r|] eqn:E.
    + intros _. split; [discriminate|]. simpl. rewrite Ex.
      eapply star_at_end; [|rewrite E; discriminate]. reflexivity.
    + rewrite digits_not_later by (simpl; lia). discriminate.
  - rewrite digits_not_later by (simpl; lia). discriminate.
Qed.

Lemma lower_step (a c : char) (n' t r : str) :
  isLowerAscii a = true -> a <> 107 ->
  (a = 105 -> exists d n'', n' = d :: n'' /\ d <> 775) ->
  stripPrefix (a :: n') (lowerChar c ++ t) = Some r ->
  canonicalize a = canonicalize c /\ stripPrefix n' t = Some r.
Proof.
  unfold canonicalize, lowerChar, isUpperAscii, isLowerAscii.
  intros Ha Hk Hi. rewrite Ha.
  apply andb_true_iff in Ha. destruct Ha as [H1 H2]. apply N.leb_le in H1, H2.
  destruct (N.leb_spec 65 c), (N.leb_spec c 90); cbn [andb].
  - simpl app. cbn [stripPrefix].
    destruct (N.eqb_spec a (c + 32)); [|discriminate]. intros Hs. split; [|exact Hs].
    destruct (N.leb_spec 97 c), (N.leb_spec c 122); cbn [andb]; lia.
  - destruct (N.eqb_spec c 304).
    + simpl app. cbn [stripPrefix].
      destruct (N.eqb_spec a 105) as [E|]; [|discriminate].
      destruct (Hi E) as (d & n'' & -> & Hd). cbn [stripPrefix].
      destruct (N.eqb_spec d 775); [contradiction|discriminate].
    + destruct (N.eqb_spec c 8490).
      * simpl app. cbn [stripPrefix].
        destruct (N.eqb_spec a 107); [contradiction|discriminate].
      * simpl app. cbn [stripPrefix].
        destruct (N.eqb_spec a c); [|discriminate]. intros Hs. split; [|exact Hs].
        subst c. destruct (N.leb_spec 97 a), (N.leb_spec a 122); cbn [andb]; lia.
  - destruct (N.eqb_spec c 304); [lia|]. destruct (N.eqb_spec c 8490); [lia|].
    simpl app. cbn [stripPrefix].
    destruct (N.eqb_spec a c); [|discriminate]. intros Hs. split; [|exact Hs].
    subst c. destruct (N.leb_spec 97 a), (N.leb_spec a 122); cbn [andb]; lia.
  - destruct (N.eqb_spec c 304); [lia|]. destruct (N.eqb_spec c 8490); [lia|].
    simpl app. cbn [stripPrefix].
    destruct (N.eqb_spec a c); [|discriminate]. intros Hs. split; [|exact Hs].
    subst c. destruct (N.leb_spec 97 a), (N.leb_spec a 122); cbn [andb]; lia.
Qed.

Lemma deriv_prefix (op r : str) :
  stripPrefix (js "deriv") (toLowerCase op) = Some r ->
  exists d y, op = d ++ y /\ sameCI (js "deriv") d.
Proof.
  change (js "deriv") with [100; 101; 114; 105; 118].
  unfold toLowerCase.
  destruct op as [|c1 op]; [discriminate|]. cbn [flat_map]. intros H.
  apply lower_step in H; [|reflexivity|lia|lia]. destruct H as [E1 H].
  destruct op as [|c2 op]; [discriminate|]. cbn [flat_map] in H.
  apply lower_step in H; [|reflexivity|lia|lia]. destruct H as [E2 H].
  destruct op as [|c3 op]; [discriminate|]. cbn [flat_map] in H.
  apply lower_step in H; [|reflexivity|lia|lia]. destruct H as [E3 H].
  destruct op as [|c4 op]; [discriminate|]. cbn [flat_map] in H.
  apply lower_step in H;
    [|reflexivity|lia|intros _; exists 118, []; split; [reflexivity|lia]].
  destruct H as [E4 H].
  destruct op as [|c5 op]; [discriminate|]. cbn [flat_map] in H.
  apply lower_step in H; [|reflexivity|lia|lia]. destruct H as [E5 H].
  exists [c1; c2; c3; c4; c5], op. split; [reflexivity|].
  repeat constructor; assumption.
Qed.

Lemma deriv_included (op : str) :
  includes (toLowerCase op) (js "deriv") = true -> mentionsDeriv op.
Proof.
  induction op as [|c op IH].
  - discriminate.
  - intros H.
    destruct (stripPrefix (js "deriv") (toLowerCase (c :: op))) as [r|] eqn:E.
    + destruct (deriv_prefix _ _ E) as (d & y & Hop & Hd).
      exists [], d, y. split; assumption.
    + assert (Hrest : includes (toLowerCase op) (js "deriv") = true).
      { revert H E. unfold toLowerCase. cbn [flat_map]. fold (toLowerCase op).
        unfold lowerChar.
        destruct (isUpperAscii c); [|destruct (c =? 304); [|destruct (c =? 8490)]];
          simpl app; intros H E; cbn [includes] in H; rewrite E in H;
          exact H. }
      destruct (IH Hrest) as (x & d & y & Hop & Hd).
      exists (c :: x), d, y. split; [simpl; congruence|exact Hd].
Qed.

Lemma derivativeOfNumber_trips (a : Server.analysis) :
  mentionsDeriv (Server.operation a) ->
  Server.result a <> [] -> forallb isDigit (Server.result a) = true ->
  Server.derivativeOfNumber a = true.
Proof.
  intros (x & d & y & Hop & Hd) Hne Hdig. unfold Server.derivativeOfNumber.
  rewrite Hop, includes_any_case by (trivial; reflexivity).
  rewrite test_digits by assumption. reflexivity.
Qed.

(** The validation of line 79 trips exactly when the parsed operation
    contains "deriv" in some letter case and the parsed result is one or
    more ASCII digits and nothing else: a sign, a decimal point, a blank or
    a letter in the result keeps the pipeline going. *)
Theorem derivative_of_number_exactly (a : Server.analysis) :
  Server.derivativeOfNumber a = true <->
  mentionsDeriv (Server.operation a) /\
  Server.result a <> [] /\ forallb isDigit (Server.result a) = true.
Proof.
  split.
  - unfold Server.derivativeOfNumber. intros H.
    apply andb_true_iff in H. destruct H as [Hd Ht].
    split; [apply deriv_included, Hd|apply test_digits_only, Ht].
  - intros (Hm & Hne & Hdig). apply derivativeOfNumber_trips; assumption.
Qed.

Lemma derivative_of_number_exactly_witness :
  mentionsDeriv (js "Derivative") /\
  js "42" <> [] /\ forallb isDigit (js "42") = true.
Proof.
  apply (proj1 (derivative_of_number_exactly
                  (Server.mkAnalysis (js "Derivative") JNull (js "42") []))).
  reflexivity.
Defined.

(** ** The runs of POST /solve in server.js *)

Lemma solve_run (w : World) (b p : jsval) :
  field b "problem" = p -> truthy p = true ->
  serve Server.app w (solveRequest b) =
  match generateContent w 0 (Server.geminiPrompt p) with
  | Ok text =>
      if Server.derivativeOfNumber (Server.parse text p)
      then fallbackAnswer w p Server.validationError
                          [Generate (Server.geminiPrompt p)]
      else
        match generateContent w 1
                (Server.explanationPrompt p (Server.parse text p)) with
        | Ok explanation =>
            (Ok (json (Server.solved p (Server.parse text p) explanation text)
                      corsResponse),
             [Generate (Server.geminiPrompt p);
              Generate (Server.explanationPrompt p (Server.parse text p))])
        | Throw e =>
            fallbackAnswer w p e
              [Generate (Server.geminiPrompt p);
               Generate (Server.explanationPrompt p (Server.parse text p))]
        end
  | Throw e => fallbackAnswer w p e [Generate (Server.geminiPrompt p)]
  end.
Proof.
  intros Hp Ht. rewrite (serve_solve w b p Hp Ht). unfold tryCatch.
  rewrite pipeline_run. unfold fallbackAnswer.
  destruct (generateContent w 0 (Server.geminiPrompt p)) as [text|e].
  - cbv zeta. destruct (Server.derivativeOfNumber (Server.parse text p)).
    + apply fallback_run, Hp.
    + destruct (generateContent w 1 _); [reflexivity|apply fallback_run, Hp].
  - apply fallback_run, Hp.
Qed.

(** For a problem that is a non-empty string: when both completions succeed
    and the validation does not trip, exactly two completions are issued (no
    fallback) and the 200 answer carries the problem, the parsed fields, the
    method "gemini-ai", the context "Solving <operation> problem", the
    explanation and the raw analysis text. *)
Theorem solved_by_pipeline (w : World) (fields : list (str * jsval))
        (s text explanation : str) :
  field (JObj fields) "problem" = JStr s -> s <> [] ->
  let p := JStr s in
  generateContent w 0 (Server.geminiPrompt p) = Ok text ->
  Server.derivativeOfNumber (Server.parse text p) = false ->
  generateContent w 1 (Server.explanationPrompt p (Server.parse text p))
    = Ok explanation ->
  exists v,
    serve Server.app w (solveRequest (JObj fields))
    = (Ok (mkResponse 200 (headers corsResponse) (Json v)),
       [Generate (Server.geminiPrompt p);
        Generate (Server.explanationPrompt p (Server.parse text p))]) /\
    field v "success" = JBool true /\
    field v "originalProblem" = p /\
    field (field v "analysis") "operation"
      = JStr (Server.operation (Server.parse text p)) /\
    field (field v "analysis") "expression"
      = Server.expression (Server.parse text p) /\
    field (field v "analysis") "context"
      = JStr (js "Solving " ++ Server.operation (Server.parse text p) ++ js " problem") /\
    field (field v "calculation") "method" = JStr (js "gemini-ai") /\
    field (field v "calculation") "result"
      = JStr (Server.result (Server.parse text p)) /\
    field (field v "calculation") "operation"
      = JStr (Server.operation (Server.parse text p)) /\
    field (field v "calculation") "steps"
      = JStr (Server.steps (Server.parse text p)) /\
    field v "explanation" = JStr explanation /\
    field v "rawGeminiResponse" = JStr text.
Proof.
  intros Hp Hs p Hgen Hv Hex.
  assert (Ht : truthy p = true) by (destruct s; [congruence|reflexivity]).
  rewrite (solve_run w (JObj fields) p Hp Ht), Hgen, Hv, Hex.
  eexists. split; [reflexivity|]. repeat split.
Qed.

Lemma solved_by_pipeline_witness :
  exists v,
    fst (serve Server.app
           (scripted [ Ok structuredSample; Ok (js "Use the power rule.") ])
           (solveRequest (JObj [ (js "problem", JStr (js "derive x^2")) ])))
    = Ok (mkResponse 200 (headers corsResponse) (Json v)) /\
    field (field v "calculation") "result" = JStr (js "2x").
Proof.
  destruct (solved_by_pipeline
              (scripted [ Ok structuredSample; Ok (js "Use the power rule.") ])
              [ (js "problem", JStr (js "derive x^2")) ] (js "derive x^2")
              structuredSample (js "Use the power rule.")
              eq_refl ltac:(discriminate) eq_refl eq_refl eq_refl) as (v & H & Hf).
  exists v. split.
  - rewrite H. reflexivity.
  - destruct Hf as (_ & _ & _ & _ & _ & _ & Hr & _). exact Hr.
Defined.

(** An answer of server.js whose method is "gemini-ai" never gives a bare
    number as the result of an operation that names a derivative: the
    pipeline's answer went through the validation of line 79. *)
Theorem pipeline_answer_validated (w : World) (fields : list (str * jsval))
        (res : response) (calls : list call) (v : jsval) :
  serve Server.app w (solveRequest (JObj fields)) = (Ok res, calls) ->
  payload_of res = Json v ->
  field (field v "calculation") "method" = JStr (js "gemini-ai") ->
  exists operation result,
    field (field v "analysis") "operation" = JStr operation /\
    field (field v "calculation") "result" = JStr result /\
    ~ (mentionsDeriv operation /\
       result <> [] /\ forallb isDigit result = true).
Proof.
  intros Hrun Hv Hm.
  destruct (truthy (field (JObj fields) "problem")) eqn:Et.
  - rewrite (solve_run w _ _ eq_refl Et) in Hrun. unfold fallbackAnswer in Hrun.
    destruct (generateContent w 0 _) as [text|e0].
    + destruct (Server.derivativeOfNumber _) eqn:Ed.
      * destruct (generateContent w _ _); injection Hrun as <- _;
          simpl in Hv; injection Hv as <-; discriminate Hm.
      * destruct (generateContent w 1 _).
        -- injection Hrun as <- _. simpl in Hv. injection Hv as <-.
           do 2 eexists. split; [reflexivity|]. split; [reflexivity|].
           intros (Hmd & Hne & Hdig).
           pose proof (derivativeOfNumber_trips _ Hmd Hne Hdig). congruence.
        -- destruct (generateContent w _ _); injection Hrun as <- _;
             simpl in Hv; injection Hv as <-; discriminate Hm.
    + destruct (generateContent w _ _); injection Hrun as <- _;
        simpl in Hv; injection Hv as <-; discriminate Hm.
  - rewrite (proj1 (guard_run w _ Et)) in Hrun. injection Hrun as <- _.
    simpl in Hv. injection Hv as <-. discriminate Hm.
Qed.

Lemma pipeline_answer_validated_witness :
  exists operation result,
    operation = js "derivative" /\ result = js "2x" /\
    ~ (mentionsDeriv operation /\
       result <> [] /\ forallb isDigit result = true).
Proof.
  destruct (pipeline_answer_validated
              (scripted [ Ok structuredSample; Ok (js "Use the power rule.") ])
              [ (js "problem", JStr (js "derive x^2")) ]
              _ _ _ eq_refl eq_refl eq_refl) as (o & r & Ho & Hr & H).
  exists o, r. injection Ho as <-. injection Hr as <-.
  split; [reflexivity|]. split; [reflexivity|exact H].
Defined.

(** For a problem that is a non-empty string, server.js answers 500 only
    when a fallback completion was issued and failed: the answer is a 200
    with success true and the problem as originalProblem, or a 500 with
    success false after a fallback completion that is among the calls and
    that failed. *)
Theorem server_error_only_after_fallback (w : World)
        (fields : list (str * jsval)) (s : str) :
  field (JObj fields) "problem" = JStr s -> s <> [] ->
  let p := JStr s in
  exists res calls v,
    serve Server.app w (solveRequest (JObj fields)) = (Ok res, calls) /\
    payload_of res = Json v /\
    ((status res = 200%nat /\ field v "success" = JBool true /\
      field v "originalProblem" = p) \/
     (status res = 500%nat /\ field v "success" = JBool false /\
      exists n e,
        nth_error calls n = Some (Generate (Server.fallbackPrompt p)) /\
        generateContent w n (Server.fallbackPrompt p) = Throw e)).
Proof.
  intros Hp Hs p.
  assert (Ht : truthy p = true) by (destruct s; [congruence|reflexivity]).
  rewrite (solve_run w _ p Hp Ht). unfold fallbackAnswer.
  destruct (generateContent w 0 _) as [text|e0].
  - destruct (Server.derivativeOfNumber _).
    + destruct (generateContent w _ (Server.fallbackPrompt p)) as [t|e] eqn:E;
        do 3 eexists; (split; [reflexivity|]); (split; [reflexivity|]);
        [left; repeat split|right; repeat split].
      exists 1%nat, e. split; [reflexivity|exact E].
    + destruct (generateContent w 1 _).
      * do 3 eexists. split; [reflexivity|]. split; [reflexivity|].
        left. repeat split.
      * destruct (generateContent w _ (Server.fallbackPrompt p)) as [t|e'] eqn:E;
          do 3 eexists; (split; [reflexivity|]); (split; [reflexivity|]);
          [left; repeat split|right; repeat split].
        exists 2%nat, e'. split; [reflexivity|exact E].
  - destruct (generateContent w _ (Server.fallbackPrompt p)) as [t|e] eqn:E;
      do 3 eexists; (split; [reflexivity|]); (split; [reflexivity|]);
      [left; repeat split|right; repeat split].
    exists 1%nat, e. split; [reflexivity|exact E].
Qed.

Lemma server_error_only_after_fallback_witness :
  exists res calls v,
    serve Server.app (scripted [ Throw (mkError (js "quota exceeded")) ])
          (solveRequest (JObj [ (js "problem", JStr (js "2x = 4")) ])) = (Ok res, calls) /\
    payload_of res = Json v /\
    ((status res = 200%nat /\ field v "success" = JBool true /\
      field v "originalProblem" = JStr (js "2x = 4")) \/
     (status res = 500%nat /\ field v "success" = JBool false /\
      exists n e,
        nth_error calls n
        = Some (Generate (Server.fallbackPrompt (JStr (js "2x = 4")))) /\
        generateContent (scripted [ Throw (mkError (js "quota exceeded")) ]) n
          (Server.fallbackPrompt (JStr (js "2x = 4"))) = Throw e)).
Proof.
  apply (server_error_only_after_fallback
           (scripted [ Throw (mkError (js "quota exceeded")) ])
           [ (js "problem", JStr (js "2x = 4")) ] (js "2x = 4")
           eq_refl ltac:(discriminate)).
Defined.

(** ** The runs of POST /solve in server1.js *)

Lemma pipeline1_run (w : World) (p : jsval) (res : response) :
  Server1.pipeline p res w [] =
  match generateContent w 0 (Server1.geminiPrompt p) with
  | Throw e => (Throw e, [Generate (Server1.geminiPrompt p)])
  | Ok text =>
      let a := Server1.parse text p in
      let newtonOp := Server1.newtonOpOf (Server1.operation a) in
      match Server1.compute newtonOp (Server1.expression a) w
                            [Generate (Server1.geminiPrompt p)] with
      | (Throw e, tr) => (Throw e, tr)
      | (Ok data, tr) =>
          match getField data "result" with
          | None => (Throw (typeError data "result"), tr)
          | Some r =>
              let prompt := Server1.explanationPrompt p a r in
              match generateContent w (List.length tr) prompt with
              | Throw e => (Throw e, tr ++ [Generate prompt])
              | Ok explanation =>
                  match getField data "operation" with
                  | Some o =>
                      (Ok (json (Server1.solved p a newtonOp r o explanation text) res),
                       tr ++ [Generate prompt])
                  | None =>
                      (Throw (typeError data "operation"), tr ++ [Generate prompt])
                  end
              end
          end
      end
  end.
Proof.
  unfold Server1.pipeline, bind, generate.
  change (List.length (@nil call)) with 0%nat.
  destruct (generateContent w 0 (Server1.geminiPrompt p)) as [text|e]; [|reflexivity].
  cbv zeta. change ([] ++ [Generate (Server1.geminiPrompt p)])
    with [Generate (Server1.geminiPrompt p)].
  destruct (Server1.compute _ _ w _) as [[data|e] tr]; [|reflexivity].
  unfold readField at 1.
  destruct (getField data "result") as [r|]; [|reflexivity].
  unfold ret at 1.
  destruct (generateContent w (List.length tr) _); [|reflexivity].
  unfold readField. destruct (getField data "operation"); reflexivity.
Qed.

(** The dual-API variant has no fallback: for a problem that is a non-empty
    string, when the analysis completion fails the request is answered at
    once with the 500 that carries the failure's message; no Newton request
    and no second completion are made. *)
Theorem dual_analysis_failure_fatal (w : World) (fields : list (str * jsval))
        (s : str) (e : error) :
  field (JObj fields) "problem" = JStr s -> s <> [] ->
  let p := JStr s in
  generateContent w 0 (Server1.geminiPrompt p) = Throw e ->
  serve Server1.app w (solveRequest (JObj fields))
  = (Ok (mkResponse 500 (headers corsResponse)
           (Json (JObj [
              (js "success", JBool false);
              (js "error", JStr (js "Failed to solve math problem"));
              (js "details", JStr (message e)) ]))),
     [Generate (Server1.geminiPrompt p)]).
Proof.
  intros Hp Hs p Hgen.
  assert (Ht : truthy p = true) by (destruct s; [congruence|reflexivity]).
  rewrite (serve_solve1 w _ p Hp Ht). unfold tryCatch.
  rewrite pipeline1_run, Hgen. reflexivity.
Qed.

Lemma dual_analysis_failure_fatal_witness :
  snd (serve Server1.app (scripted [ Throw (mkError (js "quota exceeded")) ])
         (solveRequest (JObj [ (js "problem", JStr (js "2x = 4")) ])))
  = [Generate (Server1.geminiPrompt (JStr (js "2x = 4")))].
Proof.
  rewrite (dual_analysis_failure_fatal
             (scripted [ Throw (mkError (js "quota exceeded")) ])
             [ (js "problem", JStr (js "2x = 4")) ] (js "2x = 4")
             (mkError (js "quota exceeded")) eq_refl ltac:(discriminate) eq_refl).
  reflexivity.
Defined.

(** For a problem that is a non-empty string and an expression that
    [encodeURIComponent] accepts (no lone surrogate): when the Newton request
    and its retry both fail, the request is answered with a 500 whose details
    are "Newton API error: " followed by the message of the retry's failure
    (the first failure's message is dropped), after exactly one completion
    and two Newton requests: the explanation is never asked for. *)
Theorem dual_newton_failure_fatal (w : World) (fields : list (str * jsval))
        (s text : str) (e1 e2 : error) :
  field (JObj fields) "problem" = JStr s -> s <> [] ->
  let p := JStr s in
  generateContent w 0 (Server1.geminiPrompt p) = Ok text ->
  let a := Server1.parse text p in
  let operation := ToString (Server1.newtonOpOf (Server1.operation a)) in
  let expression := ToString (Server1.expression a) in
  isWellFormed expression = true ->
  newtonGet w 1 operation expression = Throw e1 ->
  newtonGet w 2 (js "simplify") expression = Throw e2 ->
  serve Server1.app w (solveRequest (JObj fields))
  = (Ok (mkResponse 500 (headers corsResponse)
           (Json (JObj [
              (js "success", JBool false);
              (js "error", JStr (js "Failed to solve math problem"));
              (js "details", JStr (js "Newton API error: " ++ message e2)) ]))),
     [Generate (Server1.geminiPrompt p);
      NewtonGet operation expression;
      NewtonGet (js "simplify") expression]).
Proof.
  intros Hp Hs p Hgen a operation expression _ H1 H2.
  assert (Ht : truthy p = true) by (destruct s; [congruence|reflexivity]).
  rewrite (serve_solve1 w _ p Hp Ht). unfold tryCatch.
  rewrite pipeline1_run, Hgen. cbv zeta. rewrite compute_retry. cbv zeta.
  fold a. fold operation. fold expression.
  change (List.length [Generate (Server1.geminiPrompt p)]) with 1%nat.
  rewrite H1.
  change (List.length ([Generate (Server1.geminiPrompt p)]
                         ++ [NewtonGet operation expression])) with 2%nat.
  rewrite H2. reflexivity.
Qed.

Lemma dual_newton_failure_fatal_witness :
  snd (serve Server1.app
         (scripted [ Ok (js "Operation: derive" ++ nl ++ js "Expression: x^2") ])
         (solveRequest (JObj [ (js "problem", JStr (js "derive x^2")) ])))
  = [Generate (Server1.geminiPrompt (JStr (js "derive x^2")));
     NewtonGet (js "derive") (js "x^2");
     NewtonGet (js "simplify") (js "x^2")].
Proof.
  rewrite (dual_newton_failure_fatal
             (scripted [ Ok (js "Operation: derive" ++ nl ++ js "Expression: x^2") ])
             [ (js "problem", JStr (js "derive x^2")) ] (js "derive x^2")
             (js "Operation: derive" ++ nl ++ js "Expression: x^2")
             (mkError (js "no answer")) (mkError (js "no answer"))
             eq_refl ltac:(discriminate) eq_refl eq_refl eq_refl eq_refl).
  reflexivity.
Defined.

(** For a problem that is a non-empty string, a parsed operation in ASCII,
    an expression that [encodeURIComponent] accepts and Newton data whose
    result is a string: when the first Newton request fails and the retry
    with "simplify" succeeds, the request is answered with a 200 whose
    calculation.result and calculation.operation are those of the retry's
    data, while calculation.method still names the operation of the failed
    first request. *)
Theorem dual_solved_after_retry (w : World) (fields : list (str * jsval))
        (s text explanation result : str) (e1 : error) (data o : jsval) :
  field (JObj fields) "problem" = JStr s -> s <> [] ->
  let p := JStr s in
  let r := JStr result in
  generateContent w 0 (Server1.geminiPrompt p) = Ok text ->
  let a := Server1.parse text p in
  let newtonOp := Server1.newtonOpOf (Server1.operation a) in
  let expression := ToString (Server1.expression a) in
  forallb isAscii (Server1.operation a) = true ->
  isWellFormed expression = true ->
  newtonGet w 1 (ToString newtonOp) expression = Throw e1 ->
  newtonGet w 2 (js "simplify") expression = Ok data ->
  getField data "result" = Some r ->
  getField data "operation" = Some o ->
  generateContent w 3 (Server1.explanationPrompt p a r) = Ok explanation ->
  exists v,
    serve Server1.app w (solveRequest (JObj fields))
    = (Ok (mkResponse 200 (headers corsResponse) (Json v)),
       [Generate (Server1.geminiPrompt p);
        NewtonGet (ToString newtonOp) expression;
        NewtonGet (js "simplify") expression;
        Generate (Server1.explanationPrompt p a r)]) /\
    field v "success" = JBool true /\
    field (field v "calculation") "method" = newtonOp /\
    field (field v "calculation") "result" = r /\
    field (field v "calculation") "operation" = o /\
    field (field v "analysis") "operation" = JStr (Server1.operation a) /\
    field v "explanation" = JStr explanation.
Proof.
  intros Hp Hs p r Hgen a newtonOp expression _ _ H1 H2 Hr Ho Hex.
  assert (Ht : truthy p = true) by (destruct s; [congruence|reflexivity]).
  rewrite (serve_solve1 w _ p Hp Ht). unfold tryCatch.
  rewrite pipeline1_run, Hgen. cbv zeta. rewrite compute_retry. cbv zeta.
  fold a. fold newtonOp. fold expression.
  change (List.length [Generate (Server1.geminiPrompt p)]) with 1%nat.
  rewrite H1.
  change (List.length ([Generate (Server1.geminiPrompt p)]
                         ++ [NewtonGet (ToString newtonOp) expression])) with 2%nat.
  rewrite H2, Hr.
  match goal with
  | |- context [generateContent w ?n ?q] =>
      change (generateContent w n q)
        with (generateContent w 3 (Server1.explanationPrompt p a r))
  end.
  rewrite Hex, Ho. eexists. split; [reflexivity|]. repeat split.
Qed.

Lemma dual_solved_after_retry_witness :
  exists v,
    fst (serve Server1.app
           (simplifyOnly (js "Operation: derive" ++ nl ++ js "Expression: x^2")
                         (js "Simplified."))
           (solveRequest (JObj [ (js "problem", JStr (js "derive x^2")) ])))
    = Ok (mkResponse 200 (headers corsResponse) (Json v)) /\
    field (field v "calculation") "method" = JStr (js "derive") /\
    field (field v "calculation") "operation" = JStr (js "simplify").
Proof.
  destruct (dual_solved_after_retry
              (simplifyOnly (js "Operation: derive" ++ nl ++ js "Expression: x^2")
                            (js "Simplified."))
              [ (js "problem", JStr (js "derive x^2")) ] (js "derive x^2")
              (js "Operation: derive" ++ nl ++ js "Expression: x^2")
              (js "Simplified.") (js "x^2")
              (mkError (js "Request failed with status code 400"))
              _ _ eq_refl ltac:(discriminate) eq_refl eq_refl eq_refl eq_refl
              eq_refl eq_refl eq_refl eq_refl)
    as (v & H & _ & Hm & _ & Ho & _).
  exists v. rewrite H. split; [reflexivity|]. split; assumption.
Defined.


(** ** The catalog lookup of server1.js *)

Lemma lowerChar_key (a x : char) :
  isKeyChar a = true -> canonicalize a = canonicalize x -> lowerChar x = [a].
Proof.
  unfold isKeyChar. intros Ha. apply orb_true_iff in Ha. destruct Ha as [Ha|Ha].
  - apply lowerChar_same, Ha.
  - apply N.eqb_eq in Ha. subst a.
    unfold canonicalize, lowerChar, isUpperAscii, isLowerAscii. simpl.
    destruct (N.leb_spec 97 x), (N.leb_spec x 122),
             (N.leb_spec 65 x), (N.leb_spec x 90),
             (N.eqb_spec x 304), (N.eqb_spec x 8490);
      cbn [andb]; intros Hc; try lia; subst x; reflexivity.
Qed.

Lemma toLowerCase_key (k d : str) :
  forallb isKeyChar k = true -> sameCI k d -> toLowerCase d = k.
Proof.
  intros Hk H. induction H as [|a x k d Hax _ IH]; [reflexivity|].
  simpl in Hk. apply andb_true_iff in Hk. destruct Hk as [Ha Hk].
  unfold toLowerCase. simpl. rewrite (lowerChar_key a x Ha Hax).
  simpl. f_equal. apply IH, Hk.
Qed.

Lemma toLowerCase_no_capital (s : str) :
  forallb (fun c => negb (isUpperAscii c)) (toLowerCase s) = true.
Proof.
  unfold toLowerCase. induction s as [|c s IH]; [reflexivity|].
  simpl. rewrite forallb_app, IH, andb_true_r.
  unfold lowerChar, isUpperAscii.
  destruct (N.leb_spec 65 c), (N.leb_spec c 90); cbn [andb forallb].
  - destruct (N.leb_spec 65 (c + 32)), (N.leb_spec (c + 32) 90);
      cbn [andb negb]; try reflexivity; lia.
  - destruct (c =? 304); [reflexivity|]. destruct (c =? 8490); [reflexivity|].
    cbn [forallb]. destruct (N.leb_spec 65 c), (N.leb_spec c 90);
      cbn [andb negb]; try reflexivity; lia.
  - destruct (c =? 304); [reflexivity|]. destruct (c =? 8490); [reflexivity|].
    cbn [forallb]. destruct (N.leb_spec 65 c), (N.leb_spec c 90);
      cbn [andb negb]; try reflexivity; lia.
  - destruct (c =? 304); [reflexivity|]. destruct (c =? 8490); [reflexivity|].
    cbn [forallb]. destruct (N.leb_spec 65 c), (N.leb_spec c 90);
      cbn [andb negb]; try reflexivity; lia.
Qed.

Lemma assoc_in (fields : list (str * jsval)) (k : str) (v : jsval) :
  assoc fields k = Some v -> In (k, v) fields.
Proof.
  induction fields as [|[k' v'] fields IH]; simpl; [discriminate|].
  destruct (Str.eqb k' k) eqn:E.
  - intros H. injection H as ->. apply eqb_true in E. subst. left. reflexivity.
  - intros H. right. apply IH, H.
Qed.

Lemma catalog_lookup (k : str) (token : jsval) :
  assoc Server1.NEWTON_OPERATIONS k = Some token ->
  Server1.newtonOpOf k = token /\ forallb isKeyChar k = true.
Proof.
  intros H. split.
  - unfold Server1.newtonOpOf, getOwnOrInherited. rewrite H.
    apply assoc_in in H. simpl in H.
    repeat (destruct H as [H|H]; [injection H as <- <-; reflexivity|]).
    contradiction.
  - apply assoc_in in H. simpl in H.
    repeat (destruct H as [H|H]; [injection H as <- <-; reflexivity|]).
    contradiction.
Qed.

Lemma inherited_small_names (operation : str) (v : jsval) :
  forallb (fun c => negb (isUpperAscii c)) operation = true ->
  assoc objectPrototype operation = Some v ->
  operation = js "constructor" \/ operation = js "__proto__".
Proof.
  intros Hs H. apply assoc_in in H. simpl in H.
  destruct H as [H|H]; [injection H as <- _; left; reflexivity|].
  destruct H as [H|H]; [injection H as <- _; right; reflexivity|].
  repeat (destruct H as [H|H]; [injection H as <- _; discriminate Hs|]).
  contradiction.
Qed.

(** For every analysis text, the operation handed to the Newton API is the
    token of a catalog key, or the default "simplify"; the only operations
    that escape the default without naming a catalog key are "constructor"
    and "__proto__". *)
Theorem newtonOp_of_parsed (text : str) (p : jsval) :
  let operation := Server1.operation (Server1.parse text p) in
  (exists token,
     assoc Server1.NEWTON_OPERATIONS operation = Some token /\
     Server1.newtonOpOf operation = token) \/
  Server1.newtonOpOf operation = JStr (js "simplify") \/
  operation = js "constructor" \/ operation = js "__proto__".
Proof.
  intros operation.
  assert (Hs : forallb (fun c => negb (isUpperAscii c)) operation = true).
  { unfold operation, Server1.parse. simpl.
    destruct (exec Server1.reOperation text);
      [apply toLowerCase_no_capital|reflexivity]. }
  destruct (assoc Server1.NEWTON_OPERATIONS operation) as [token|] eqn:E.
  - left. exists token. split; [reflexivity|apply catalog_lookup, E].
  - right. destruct (assoc objectPrototype operation) as [v|] eqn:Ep.
    + right. apply (inherited_small_names operation v Hs Ep).
    + left. apply newtonOpOf_unknown; assumption.
Qed.

(** The catalog is looked up by the lower-cased operation: an analysis
    whose Operation: line names a catalog key in any letter case is mapped to
    that key's token. *)
Theorem catalog_lookup_ignores_case (text post k : str) (token p : jsval) :
  afterLabel (js "Operation:") text = Some post ->
  trimStart post <> [] ->
  sameCI k (trim (firstLine (trimStart post))) ->
  assoc Server1.NEWTON_OPERATIONS k = Some token ->
  Server1.operation (Server1.parse text p) = k /\
  Server1.newtonOpOf (Server1.operation (Server1.parse text p)) = token.
Proof.
  intros Hl Hp Hci Hk. destruct (catalog_lookup k token Hk) as [Hop Hkey].
  assert (E : Server1.operation (Server1.parse text p) = k).
  { unfold Server1.parse. simpl.
    change Server1.reOperation
      with (mkRegExp (lit "Operation:" ++ tailPattern isDot) true).
    rewrite (exec_line_value _ _ post) by label_facts.
    simpl group1. apply toLowerCase_key; assumption. }
  rewrite E. split; [reflexivity|exact Hop].
Qed.

Lemma catalog_lookup_ignores_case_witness :
  Server1.newtonOpOf
    (Server1.operation
       (Server1.parse (js "OPERATION: Cosine" ++ nl ++ js "Expression: pi") JNull))
  = JStr (js "cos").
Proof.
  apply (catalog_lookup_ignores_case
           (js "OPERATION: Cosine" ++ nl ++ js "Expression: pi")
           (js " Cosine" ++ nl ++ js "Expression: pi") (js "cosine")
           (JStr (js "cos")) JNull eq_refl).
  - vm_compute. discriminate.
  - vm_compute. repeat constructor.
  - reflexivity.
Defined.

(** ** What the parsed fields look like *)

Lemma trimStart_black_end (u : str) (c : char) :
  isWhiteSpace c = false -> trimStart (u ++ [c]) = trimStart u ++ [c].
Proof.
  intros Hc. induction u as [|x u IH]; simpl.
  - rewrite Hc. reflexivity.
  - destruct (isWhiteSpace x); [exact IH|reflexivity].
Qed.

Lemma trimEnd_black_head (c : char) (t : str) :
  isWhiteSpace c = false -> exists u, trimEnd (c :: t) = c :: u.
Proof.
  intros Hc. unfold trimEnd. simpl rev at 2.
  rewrite trimStart_black_end by exact Hc.
  rewrite rev_app_distr. simpl. eexists. reflexivity.
Qed.

Lemma trim_black_head (c : char) (t : str) :
  isWhiteSpace c = false -> exists u, trim (c :: t) = c :: u.
Proof.
  intros Hc. unfold trim. simpl trimStart. rewrite Hc.
  apply trimEnd_black_head, Hc.
Qed.

Lemma trimStart_head (s : str) :
  trimStart s = [] \/ exists c t, trimStart s = c :: t /\ isWhiteSpace c = false.
Proof.
  induction s as [|x s IH]; simpl; [left; reflexivity|].
  destruct (isWhiteSpace x) eqn:E; [exact IH|].
  right. exists x, s. split; [reflexivity|exact E].
Qed.

Lemma trimEnd_idem (t : str) : trimEnd (trimEnd t) = trimEnd t.
Proof. unfold trimEnd. rewrite rev_involutive, trimStart_idem. reflexivity. Qed.

Lemma trim_idem (s : str) : trim (trim s) = trim s.
Proof.
  unfold trim.
  destruct (trimStart_head s) as [E|(c & t & E & Hc)]; rewrite E.
  - reflexivity.
  - destruct (trimEnd_black_head c t Hc) as (u & Hu). rewrite Hu.
    simpl trimStart. rewrite Hc, <- Hu. apply trimEnd_idem.
Qed.

Lemma valueAt_terminators (post : str) :
  existsb isDot post = false -> valueAt isDot post = None.
Proof.
  unfold valueAt. induction post as [|c post IH]; simpl; [reflexivity|].
  intros H. apply orb_false_iff in H. destruct H as [Hc Hp].
  rewrite (terminator_is_white c (not_dot_is_terminator c Hc)), (IH Hp).
  unfold captureAt. simpl. rewrite Hc. reflexivity.
Qed.

Lemma forallb_trimStart (p : char -> bool) (s : str) :
  forallb p s = true -> forallb p (trimStart s) = true.
Proof.
  induction s as [|x s IH]; simpl; [trivial|].
  intros H. destruct (isWhiteSpace x); [|exact H].
  apply andb_true_iff in H. apply IH, H.
Qed.

Lemma forallb_rev (p : char -> bool) (s : str) :
  forallb p s = true -> forallb p (rev s) = true.
Proof.
  rewrite !forallb_forall. intros H x Hx. apply H, in_rev, Hx.
Qed.

Lemma forallb_trim (p : char -> bool) (s : str) :
  forallb p s = true -> forallb p (trim s) = true.
Proof.
  intros H. unfold trim, trimEnd.
  apply forallb_rev, forallb_trimStart, forallb_rev, forallb_trimStart, H.
Qed.

Lemma forallb_takeWhile (p : char -> bool) (s : str) :
  forallb p (takeWhile p s) = true.
Proof.
  induction s as [|x s IH]; simpl; [reflexivity|].
  destruct (p x) eqn:E; [simpl; rewrite E; exact IH|reflexivity].
Qed.

Lemma star_result {R : Type} (p : char -> bool) (k : str -> option R)
      (s : str) (r : R) :
  star p k s = Some r -> exists s', k s' = Some r.
Proof.
  induction s as [|c s IH]; simpl.
  - intros H. exists []. exact H.
  - destruct (p c).
    + destruct (star p k s) as [r'|] eqn:E.
      * intros H. injection H as <-. apply IH. reflexivity.
      * intros H. exists (c :: s). exact H.
    + intros H. exists (c :: s). exact H.
Qed.

Lemma valueAt_class (cls : char -> bool) (post : str) (m : option str) :
  valueAt cls post = Some m -> exists c, m = Some c /\ forallb cls c = true.
Proof.
  unfold valueAt. intros H. apply star_result in H. destruct H as (s' & H).
  destruct s' as [|x s']; [discriminate|].
  destruct (cls x) eqn:Ex.
  - rewrite captureAt_head in H by exact Ex. injection H as <-.
    eexists. split; [reflexivity|apply (forallb_takeWhile cls (x :: s'))].
  - unfold captureAt in H. simpl in H. rewrite Ex in H. discriminate.
Qed.

(** The text fields of the parser of server.js are trimmed: they have no
    white space at either end; and the operation and the result, taken from
    one line, never contain a line terminator. *)
Theorem parsed_fields_trimmed (text : str) (p : jsval) :
  let a := Server.parse text p in
  trim (Server.operation a) = Server.operation a /\
  trim (Server.result a) = Server.result a /\
  trim (Server.steps a) = Server.steps a /\
  forallb isDot (Server.operation a) = true /\
  forallb isDot (Server.result a) = true.
Proof.
  unfold Server.parse. simpl.
  change Server.reOPERATION
    with (mkRegExp (lit "OPERATION:" ++ tailPattern isDot) true).
  change Server.reRESULT
    with (mkRegExp (lit "RESULT:" ++ tailPattern isDot) true).
  rewrite !(exec_label _ isDot) by label_facts.
  repeat split.
  - destruct (afterLabel _ text) as [post|]; [|reflexivity].
    destruct (valueAt isDot post); [apply trim_idem|reflexivity].
  - destruct (afterLabel (js "RESULT:") text) as [post|]; [|reflexivity].
    destruct (valueAt isDot post); [apply trim_idem|reflexivity].
  - destruct (exec Server.reSTEPS text); [apply trim_idem|reflexivity].
  - destruct (afterLabel _ text) as [post|]; [|reflexivity].
    destruct (valueAt isDot post) as [m|] eqn:E; [|reflexivity].
    destruct (valueAt_class _ _ _ E) as (c & -> & Hc). apply forallb_trim, Hc.
  - destruct (afterLabel (js "RESULT:") text) as [post|]; [|reflexivity].
    destruct (valueAt isDot post) as [m|] eqn:E; [|reflexivity].
    destruct (valueAt_class _ _ _ E) as (c & -> & Hc). apply forallb_trim, Hc.
Qed.

(** The parsed operation (and likewise the parsed result) is empty exactly
    when the first occurrence of its label is followed by white space only,
    up to the end of the text, with a blank that is not a line terminator
    among it; in every other case it is not empty. *)
Theorem parsed_field_empty (text : str) (p : jsval) :
  (Server.operation (Server.parse text p) = [] <->
   exists post, afterLabel (js "OPERATION:") text = Some post /\
                trimStart post = [] /\ existsb isDot post = true) /\
  (Server.result (Server.parse text p) = [] <->
   exists post, afterLabel (js "RESULT:") text = Some post /\
                trimStart post = [] /\ existsb isDot post = true).
Proof.
  assert (G : forall name dflt,
    js name <> [] ->
    forallb (fun a => negb (isLineTerminator (canonicalize a))) (js name) = true ->
    dflt <> [] ->
    (match exec (mkRegExp (lit name ++ tailPattern isDot) true) text with
     | Some m => trim (group1 m)
     | None => dflt
     end = [] <->
     exists post, afterLabel (js name) text = Some post /\
                  trimStart post = [] /\ existsb isDot post = true)).
  { intros name dflt Hn Hp Hd. split.
    - destruct (afterLabel (js name) text) as [post|] eqn:E.
      + destruct (trimStart_head post) as [Hb|(c & t & Hc & Hw)].
        * intros H. exists post. split; [reflexivity|]. split; [exact Hb|].
          rewrite (exec_label name isDot) in H by label_facts. rewrite E in H.
          destruct (existsb isDot post) eqn:Ex; [reflexivity|].
          rewrite (valueAt_terminators post Ex) in H. contradiction.
        * rewrite (exec_line_value name text post) by (label_facts || congruence).
          simpl group1. rewrite Hc. unfold firstLine. simpl.
          rewrite (black_is_dot c Hw).
          destruct (trim_black_head c (takeWhile isDot t) Hw) as (u & ->).
          discriminate.
      + rewrite exec_line_absent by label_facts. contradiction.
    - intros (post & E & Hb & Hx).
      destruct (exec_blank name isDot black_is_dot not_dot_is_terminator Hn Hp
                           text post E Hb) as [Hnone|(c & -> & Hc)].
      + rewrite (exec_label name isDot) in Hnone by label_facts.
        rewrite E in Hnone.
        apply (valueAt_none isDot black_is_dot not_dot_is_terminator) in Hnone.
        exfalso. clear -Hx Hnone. induction post as [|x post IH]; [discriminate|].
        simpl in *. apply andb_true_iff in Hnone. destruct Hnone as [Hl Hr].
        unfold isDot in Hx at 1. rewrite Hl in Hx. simpl in Hx. apply IH; assumption.
      + exact Hc. }
  split; apply G; label_facts.
Qed.

Lemma parsed_field_empty_witness :
  exists post, afterLabel (js "OPERATION:") (js "OPERATION: ") = Some post /\
               trimStart post = [] /\ existsb isDot post = true.
Proof.
  apply (proj1 (proj1 (parsed_field_empty (js "OPERATION: ") JNull))).
  reflexivity.
Defined.

(** ** The prompts *)

Lemma stripPrefix_split (n t c : str) :
  stripPrefix n t = Some c -> t = n ++ c.
Proof.
  revert t. induction n as [|x n IH]; intros t; simpl.
  - intros H. injection H as ->. reflexivity.
  - destruct t as [|y t]; [discriminate|].
    destruct (N.eqb_spec x y); [|discriminate].
    intros H. subst y. f_equal. apply IH, H.
Qed.

Lemma includes_split (t s : str) :
  includes t s = true -> exists a c, t = a ++ s ++ c.
Proof.
  induction t as [|x t IH]; cbn [includes].
  - destruct (stripPrefix s []) as [c|] eqn:E; [|discriminate].
    intros _. exists [], c. exact (stripPrefix_split s _ c E).
  - destruct (stripPrefix s (x :: t)) as [c|] eqn:E.
    + intros _. exists [], c. exact (stripPrefix_split s _ c E).
    + intros H. destruct (IH H) as (a & c & ->). exists (x :: a), c. reflexivity.
Qed.

Lemma includes_here (s b : str) : includes (s ++ b) s = true.
Proof. apply (includes_app [] s b). Qed.

Lemma includes_skip (a t s : str) :
  includes t s = true -> includes (a ++ t) s = true.
Proof.
  intros H. destruct (includes_split t s H) as (x & c & ->).
  rewrite app_assoc. apply includes_app.
Qed.

Lemma includes_left (t b s : str) :
  includes t s = true -> includes (t ++ b) s = true.
Proof.
  intros H. destruct (includes_split t s H) as (x & c & ->).
  rewrite <- !app_assoc. apply includes_app.
Qed.

Lemma includes_self (s : str) : includes s s = true.
Proof.
  pose proof (includes_app [] s []) as H. simpl in H.
  rewrite app_nil_r in H. exact H.
Qed.

Ltac find_embedded :=
  solve [ apply includes_here
        | apply includes_self
        | apply includes_skip; find_embedded
        | apply includes_left; find_embedded ].

(** Every prompt carries the text of the problem as it is, without any
    escaping: the three prompts of server.js and the two of server1.js
    contain the problem string verbatim. *)
Theorem prompts_embed_problem (s : str) (a : Server.analysis)
        (a1 : Server1.analysis) (r : jsval) :
  includes (Server.geminiPrompt (JStr s)) s = true /\
  includes (Server.explanationPrompt (JStr s) a) s = true /\
  includes (Server.fallbackPrompt (JStr s)) s = true /\
  includes (Server1.geminiPrompt (JStr s)) s = true /\
  includes (Server1.explanationPrompt (JStr s) a1 r) s = true.
Proof.
  unfold Server.geminiPrompt, Server.explanationPrompt, Server.fallbackPrompt,
    Server1.geminiPrompt, Server1.explanationPrompt.
  cbn [unlines join ToString].
  split; [|split; [|split; [|split]]]; find_embedded.
Qed.

(** ** parseGeminiResponse of server1.js *)

Lemma execFrom_run_class (cls : char -> bool) (input s : str) :
  execFrom input false [Open; Plus cls; Close] s =
  match dropWhile (fun c => negb (cls c)) s with
  | [] => None
  | x :: t => Some (Some (takeWhile cls (x :: t)))
  end.
Proof.
  induction s as [|x s IH]; [reflexivity|].
  cbn [execFrom dropWhile].
  change (run input false [Open; Plus cls; Close] (x :: s) None (x :: s))
    with (captureAt cls (x :: s)).
  destruct (cls x) eqn:Ex; cbn [negb].
  - rewrite captureAt_head by exact Ex. reflexivity.
  - unfold captureAt. cbn [run]. rewrite Ex. exact IH.
Qed.

Lemma trimStart_white (s : str) :
  forallb isWhiteSpace s = true -> trimStart s = [].
Proof.
  induction s as [|x s IH]; simpl; [trivial|].
  intros H. apply andb_true_iff in H. destruct H as [-> H]. apply IH, H.
Qed.

(** The operation of [parseGeminiResponse] is always one of derive,
    integrate, factor, zeroes and simplify, each a key of the catalog that
    is its own Newton token; and a response that names a derivative
    ("derivative", "derive" or "differentiate", in any letter case) gives
    derive whatever else it names. *)
Theorem helper_operation (response : str) :
  let operation := fst (Server1.parseGeminiResponse response) in
  In operation [js "derive"; js "integrate"; js "factor"; js "zeroes"; js "simplify"] /\
  Server1.newtonOpOf operation = JStr operation /\
  (forall x d y,
     response = x ++ d ++ y ->
     sameCI (js "derivative") d \/ sameCI (js "derive") d \/
     sameCI (js "differentiate") d ->
     operation = js "derive").
Proof.
  unfold Server1.parseGeminiResponse. cbv zeta. cbn [fst].
  split; [|split].
  - repeat match goal with
           | |- context [includes ?t ?k] => destruct (includes t k)
           end; cbn [orb]; simpl; tauto.
  - repeat match goal with
           | |- context [includes ?t ?k] => destruct (includes t k)
           end; cbn [orb]; reflexivity.
  - intros x d y -> [H|[H|H]].
    + rewrite (includes_any_case x d y (js "derivative") eq_refl H). reflexivity.
    + rewrite (includes_any_case x d y (js "derive") eq_refl H).
      rewrite orb_true_r. reflexivity.
    + rewrite (includes_any_case x d y (js "differentiate") eq_refl H).
      rewrite orb_true_r. reflexivity.
Qed.

Lemma helper_operation_witness :
  fst (Server1.parseGeminiResponse
         (js "Integrate, then DIFFERENTIATE the result")) = js "derive".
Proof.
  apply (proj2 (proj2 (helper_operation
                         (js "Integrate, then DIFFERENTIATE the result")))
           (js "Integrate, then ") (js "DIFFERENTIATE") (js " the result")
           eq_refl).
  right. right. vm_compute. repeat constructor.
Defined.

(** The expression of [parseGeminiResponse] is the first run of expression
    characters (x, digits, + - * / ^ ( ) and white space) of the lower-cased
    response, trimmed: it holds expression characters only, and it is empty
    when that first run is white space, whatever follows later in the
    response. *)
Theorem helper_expression (response : str) :
  let expression := snd (Server1.parseGeminiResponse response) in
  let run := takeWhile Server1.isExpressionChar
               (fromFirstExpressionChar (toLowerCase response)) in
  expression = trim run /\
  forallb Server1.isExpressionChar expression = true /\
  (forallb isWhiteSpace run = true -> expression = []).
Proof.
  unfold Server1.parseGeminiResponse. cbv zeta. cbn [snd].
  unfold exec. simpl source. simpl ignoreCase.
  rewrite execFrom_run_class. unfold fromFirstExpressionChar.
  destruct (dropWhile _ (toLowerCase response)) as [|x t] eqn:E.
  - repeat split.
  - cbn [group1]. split; [reflexivity|]. split.
    + apply forallb_trim, forallb_takeWhile.
    + intros H. apply trim_blank, trimStart_white, H.
Qed.

Lemma helper_expression_witness :
  snd (Server1.parseGeminiResponse (js "Find the derivative of x^2 + 3x")) = [].
Proof.
  apply (proj2 (proj2 (helper_expression
                         (js "Find the derivative of x^2 + 3x")))).
  reflexivity.
Defined.

(** ** The connection test of index.html *)

Lemma attempts_first_success (net : nat -> Client.fetched) (retries : nat)
      (pg : Client.page) (d : nat) :
  forall i left log,
    (d < left)%nat -> (i + left = retries)%nat ->
    (forall j, (i <= j < i + d)%nat -> Client.failure (net j) <> None) ->
    Client.failure (net (i + d)%nat) = None ->
    Client.attempts net retries i left pg log
    = (true, Client.updateConnectionStatus true [] pg,
       log ++ flat_map (fun j => [Client.FetchHealth; Client.Sleep (2 ^ j * 1000)])
                       (seq i d)
           ++ [Client.FetchHealth]).
Proof.
  induction d as [|d IH]; intros i left log Hd Hi Hfail Hok.
  - destruct left as [|left]; [lia|]. cbn [Client.attempts].
    rewrite Nat.add_0_r in Hok. rewrite Hok. reflexivity.
  - destruct left as [|left]; [lia|]. cbn [Client.attempts].
    destruct (Client.failure (net i)) as [msg|] eqn:E;
      [|exfalso; apply (Hfail i); [lia|exact E]].
    destruct (Nat.eqb_spec i (retries - 1)) as [Heq|_]; [lia|].
    rewrite (IH (S i) left); try lia.
    + cbn [seq flat_map]. rewrite <- !app_assoc. reflexivity.
    + intros j Hj. apply Hfail. lia.
    + replace (S i + d)%nat with (i + S d)%nat by lia. exact Hok.
Qed.

Lemma attempts_all_fail (net : nat -> Client.fetched) (retries : nat)
      (pg : Client.page) (left : nat) :
  forall i log,
    (0 < left)%nat -> (i + left = retries)%nat ->
    (forall j, (i <= j < retries)%nat -> Client.failure (net j) <> None) ->
    exists msg,
      Client.failure (net (retries - 1)%nat) = Some msg /\
      Client.attempts net retries i left pg log
      = (false, Client.updateConnectionStatus false msg pg,
         log ++ flat_map (fun j => [Client.FetchHealth; Client.Sleep (2 ^ j * 1000)])
                         (seq i (left - 1))
             ++ [Client.FetchHealth]).
Proof.
  induction left as [|left IH]; intros i log Hl Hi Hfail; [lia|].
  cbn [Client.attempts].
  destruct (Client.failure (net i)) as [msg|] eqn:E;
    [|exfalso; apply (Hfail i); [lia|exact E]].
  destruct (Nat.eqb_spec i (retries - 1)) as [Heq|Hne].
  - assert (left = 0%nat) by lia. subst left. exists msg.
    split; [rewrite <- Heq; exact E|reflexivity].
  - destruct (IH (S i) (log ++ [Client.FetchHealth; Client.Sleep (2 ^ i * 1000)]))
      as (m & Hm & Hrun); try lia.
    + intros j Hj. apply Hfail. lia.
    + exists m. split; [exact Hm|]. rewrite Hrun.
      replace (S left - 1)%nat with (S (left - 1)) by lia.
      cbn [seq flat_map]. rewrite <- !app_assoc. reflexivity.
Qed.

(** The connection test stops at the first attempt that succeeds: when the
    attempt of index k is the first to get an ok response with a JSON body,
    the test returns true after k + 1 fetches, having waited 1000 * 2^j ms
    after each failed attempt j, and the page is marked connected. *)
Theorem connection_test_first_success (net : nat -> Client.fetched)
        (retries k : nat) (pg : Client.page) :
  (k < retries)%nat ->
  (forall j, (j < k)%nat -> Client.failure (net j) <> None) ->
  Client.failure (net k) = None ->
  Client.testServerConnection net retries pg
  = (true, Client.updateConnectionStatus true [] pg, schedule k) /\
  waited (schedule k) = ((2 ^ k - 1) * 1000)%nat.
Proof.
  intros Hk Hfail Hok. split.
  - unfold Client.testServerConnection, schedule.
    rewrite (attempts_first_success net retries pg k 0 retries []); try lia.
    + reflexivity.
    + intros j Hj. apply Hfail. lia.
    + exact Hok.
  - clear. unfold schedule.
    assert (G : forall i d,
      waited (flat_map (fun j => [Client.FetchHealth; Client.Sleep (2 ^ j * 1000)])
                       (seq i d) ++ [Client.FetchHealth])
      = ((2 ^ (i + d) - 2 ^ i) * 1000)%nat).
    { intros i d. revert i. induction d as [|d IH]; intros i.
      - rewrite Nat.add_0_r, Nat.sub_diag. reflexivity.
      - cbn [seq flat_map app waited fold_right]. fold (waited
          (flat_map (fun j => [Client.FetchHealth; Client.Sleep (2 ^ j * 1000)])
                    (seq (S i) d) ++ [Client.FetchHealth])).
        rewrite IH. replace (S i + d)%nat with (i + S d)%nat by lia.
        assert (H1 : (2 ^ S i = 2 * 2 ^ i)%nat) by apply Nat.pow_succ_r'.
        assert (H2 : (2 ^ S i <= 2 ^ (i + S d))%nat)
          by (apply Nat.pow_le_mono_r; lia).
        lia. }
    rewrite (G 0%nat k). reflexivity.
Qed.

Lemma connection_test_first_success_witness :
  Client.testServerConnection
    (fun i => match i with
              | O => Client.Rejected (mkError (js "Failed to fetch"))
              | S _ => Client.Responded true 200 (js "OK") (Ok (JObj []))
              end)
    3 (Client.mkPage false [] [] false)
  = (true,
     Client.updateConnectionStatus true [] (Client.mkPage false [] [] false),
     [Client.FetchHealth; Client.Sleep 1000; Client.FetchHealth]).
Proof.
  set (net := fun i : nat => match i with O => _ | S _ => _ end).
  apply (proj1 (connection_test_first_success net 3 1 _
                  ltac:(lia)
                  ltac:(intros [|j] Hj; [simpl; discriminate|lia]) eq_refl)).
Defined.

(** When every attempt fails, the connection test gives up after exactly
    [retries] fetches, without a wait after the last one: it returns false
    and marks the page disconnected with the message of the last failure,
    the solve button disabled. *)
Theorem connection_test_all_fail (net : nat -> Client.fetched)
        (retries : nat) (pg : Client.page) :
  (0 < retries)%nat ->
  (forall j, (j < retries)%nat -> Client.failure (net j) <> None) ->
  exists msg,
    Client.failure (net (retries - 1)%nat) = Some msg /\
    Client.testServerConnection net retries pg
    = (false, Client.updateConnectionStatus false msg pg, schedule (retries - 1)) /\
    Client.solveBtnDisabled (Client.updateConnectionStatus false msg pg) = true /\
    List.length (filter isFetch (schedule (retries - 1))) = retries.
Proof.
  intros Hr Hfail.
  destruct (attempts_all_fail net retries pg retries 0 [] Hr eq_refl)
    as (msg & Hm & Hrun); [intros j Hj; apply Hfail; lia|].
  exists msg. split; [exact Hm|]. split; [exact Hrun|]. split; [reflexivity|].
  unfold schedule. rewrite filter_app. simpl.
  assert (G : forall i d,
    List.length (filter isFetch
      (flat_map (fun j => [Client.FetchHealth; Client.Sleep (2 ^ j * 1000)])
                (seq i d))) = d).
  { intros i d. revert i. induction d as [|d IH]; intros i; [reflexivity|].
    cbn [seq flat_map app filter isFetch List.length]. rewrite IH. reflexivity. }
  rewrite length_app, G. simpl. lia.
Qed.

Lemma connection_test_all_fail_witness :
  exists msg,
    Client.failure (Client.Responded false 503 (js "Service Unavailable") (Ok JNull))
    = Some msg /\
    Client.testServerConnection
      (fun _ => Client.Responded false 503 (js "Service Unavailable") (Ok JNull))
      3 (Client.mkPage false [] [] false)
    = (false,
       Client.updateConnectionStatus false msg (Client.mkPage false [] [] false),
       schedule 2).
Proof.
  destruct (connection_test_all_fail
              (fun _ => Client.Responded false 503 (js "Service Unavailable") (Ok JNull))
              3 (Client.mkPage false [] [] false)
              ltac:(lia) ltac:(intros; discriminate))
    as (msg & Hm & Hrun & _).
  exists msg. split; [exact Hm|exact Hrun].
Defined.

Lemma waited_app (a b : list Client.event) :
  waited (a ++ b) = (waited a + waited b)%nat.
Proof.
  induction a as [|e a IH]; [reflexivity|].
  simpl. destruct e; rewrite IH; lia.
Qed.

Lemma attempts_shape (net : nat -> Client.fetched) (retries : nat)
      (pg : Client.page) (left : nat) :
  forall i log,
    (i + left = retries)%nat ->
    exists ok pg' ev,
      Client.attempts net retries i left pg log = (ok, pg', log ++ ev) /\
      (List.length (filter isFetch ev) <= left)%nat /\
      (left = 0%nat -> ok = false /\ pg' = pg /\ ev = []) /\
      (0 < left ->
       waited ev + 2 ^ i * 1000 <= 2 ^ (retries - 1) * 1000 /\
       Client.serverConnected pg' = ok /\
       Client.solveBtnDisabled pg' = negb ok)%nat.
Proof.
  induction left as [|left IH]; intros i log Hi.
  - exists false, pg, []. rewrite app_nil_r. repeat split; simpl; lia.
  - cbn [Client.attempts].
    assert (Hpow : (2 ^ i <= 2 ^ (retries - 1))%nat)
      by (apply Nat.pow_le_mono_r; lia).
    destruct (Client.failure (net i)) as [msg|].
    + destruct (Nat.eqb_spec i (retries - 1)) as [Heq|Hne].
      * exists false, (Client.updateConnectionStatus false msg pg), [Client.FetchHealth].
        repeat split; simpl; try lia; discriminate.
      * destruct (IH (S i) (log ++ [Client.FetchHealth; Client.Sleep (2 ^ i * 1000)]))
          as (ok & pg' & ev & Hrun & Hn & _ & Hpos); [lia|].
        destruct Hpos as (Hw & Hc & Hd); [lia|].
        exists ok, pg', ([Client.FetchHealth; Client.Sleep (2 ^ i * 1000)] ++ ev).
        rewrite Hrun, <- app_assoc.
        split; [reflexivity|]. split; [simpl; lia|]. split; [intros; lia|].
        intros _. split; [|split; assumption].
        rewrite waited_app. simpl waited.
        assert (H1 : (2 ^ S i = 2 * 2 ^ i)%nat) by apply Nat.pow_succ_r'.
        lia.
    + exists true, (Client.updateConnectionStatus true [] pg), [Client.FetchHealth].
      repeat split; simpl; try lia; discriminate.
Qed.

(** Whatever the network does, the connection test makes at most [retries]
    fetches and waits at most 1000 * (2^(retries-1) - 1) ms in all (3000 ms
    for the three attempts of the default); when it has run at least one
    attempt the page's flag is the value returned and the solve button is
    disabled exactly when the test failed; with no attempt allowed it returns
    false and leaves the page as it was. *)
Theorem connection_test_bounded (net : nat -> Client.fetched) (retries : nat)
        (pg : Client.page) :
  let r := Client.testServerConnection net retries pg in
  let ok := fst (fst r) in
  let pg' := snd (fst r) in
  let log := snd r in
  (List.length (filter isFetch log) <= retries)%nat /\
  (waited log <= (2 ^ (retries - 1) - 1) * 1000)%nat /\
  (retries = 0%nat -> ok = false /\ pg' = pg /\ log = []) /\
  ((0 < retries)%nat ->
   Client.serverConnected pg' = ok /\ Client.solveBtnDisabled pg' = negb ok).
Proof.
  unfold Client.testServerConnection.
  destruct (attempts_shape net retries pg retries 0 [] eq_refl)
    as (ok & pg' & ev & -> & Hn & Hz & Hpos).
  cbn [fst snd app]. split; [exact Hn|]. split; [|split].
  - destruct retries as [|n].
    + destruct (Hz eq_refl) as (_ & _ & ->). simpl. lia.
    + destruct Hpos as (Hw & _); [lia|].
      change (2 ^ 0)%nat with 1%nat in Hw.
      remember (2 ^ (S n - 1))%nat as P. lia.
  - exact Hz.
  - intros H. apply Hpos in H. tauto.
Qed.

Lemma connection_test_bounded_witness :
  snd (Client.testServerConnection
         (fun _ => Client.Rejected (mkError (js "Failed to fetch")))
         0 (Client.mkPage true [] [] false)) = [].
Proof.
  apply (proj1 (proj2 (proj2
    (connection_test_bounded
       (fun _ => Client.Rejected (mkError (js "Failed to fetch")))
       0 (Client.mkPage true [] [] false)))) eq_refl).
Defined.

(** The Newton call of server1.js, for the operation that line 124 maps a
    parsed operation to and an expression string that [encodeURIComponent]
    accepts (no lone surrogate), makes one request, or two: the second is
    made only after the first has failed, always for the operation
    "simplify" and the same expression, and there is no third.  The data of
    the request that succeeds is returned; when both fail, the error thrown
    is "Newton API error: " followed by the message of the second failure. *)
Theorem newton_retry_policy (w : World) (operation e : str) (tr : list call) :
  isWellFormed e = true ->
  let newtonOp := Server1.newtonOpOf operation in
  let first := NewtonGet (ToString newtonOp) e in
  let second := NewtonGet (js "simplify") e in
  let run := Server1.compute newtonOp (JStr e) w tr in
  (exists data,
     newtonGet w (List.length tr) (ToString newtonOp) e = Ok data /\
     run = (Ok data, tr ++ [first])) \/
  (exists e1,
     newtonGet w (List.length tr) (ToString newtonOp) e = Throw e1 /\
     snd run = tr ++ [first; second] /\
     fst run =
       match newtonGet w (S (List.length tr)) (js "simplify") e with
       | Ok data => Ok data
       | Throw e2 => Throw (mkError (js "Newton API error: " ++ message e2))
       end).
Proof.
  intros _ newtonOp first second run. subst run. rewrite compute_retry. cbv zeta.
  change (ToString (JStr e)) with e. fold first. fold second.
  destruct (newtonGet w (List.length tr) _ _) as [data|e1].
  - left. exists data. split; reflexivity.
  - right. exists e1. split; [reflexivity|].
    rewrite length_app. simpl List.length. rewrite Nat.add_1_r.
    destruct (newtonGet w (S (List.length tr)) _ _);
      rewrite <- app_assoc; split; reflexivity.
Qed.

Lemma newton_retry_policy_witness :
  snd (Server1.compute (Server1.newtonOpOf (js "derive")) (JStr (js "x^2"))
         (scripted []) [])
  = [NewtonGet (js "derive") (js "x^2"); NewtonGet (js "simplify") (js "x^2")].
Proof.
  destruct (newton_retry_policy (scripted []) (js "derive") (js "x^2") [] eq_refl)
    as [(data & H & _)|(e1 & _ & H & _)].
  - discriminate H.
  - exact H.
Defined.
